(** * Monte Carlo lane-threshold experiment: a shallow embedding of main.ipynb

    The notebook draws N pairs of speeds once, keeps them in the module-level
    arrays [v1], [v2], [vmin], [vmax], and then evaluates
    [simulate_cost_vectorized] at many thresholds and runs the bisection
    [optimize].

    Numbers.  numpy's float64 values are modelled by exact rationals [Q]:
    rounding is not modelled.  The only non-finite value the two functions can
    produce is the NaN that [np.mean] returns on an empty array; it is kept as
    a separate constructor because the comparison in [optimize] observes it.
    The bisection bounds are dyadic rationals with at most ten fractional bits,
    so on them the exact and the float64 computations coincide.

    Where exact and binary64 arithmetic differ in kind and not only by
    rounding, namely where a square underflows to zero, module [F64] gives
    the cost function over the kernel's binary64 floats, and the statements
    over [Q] are restricted to the inputs on which both agree. *)

From Stdlib Require Import PrimFloat Uint63.
From Stdlib Require Import ZArith Arith QArith Qpower Qminmax Lqa Lia List Bool Permutation.
Import ListNotations.
Open Scope Q_scope.

(** ** Numbers and numpy arrays *)

Inductive np_float : Type :=
| Fin (q : Q)
| NaN.

(** [x < y] on floats: false as soon as one side is NaN. *)
Definition Qlt_bool (x y : Q) : bool := negb (Qle_bool y x).

Definition np_lt (x y : np_float) : bool :=
  match x, y with
  | Fin p, Fin q => Qlt_bool p q
  | _, _ => false
  end.

Inductive exn : Type :=
| IndexError
| ValueError.

Inductive outcome (A : Type) : Type :=
| Done (x : A)
| Raised (e : exn)
| OutOfFuel.
Arguments Done {A} x.
Arguments Raised {A} e.
Arguments OutOfFuel {A}.

(** [np.minimum(x, y)] and [np.maximum(x, y)], elementwise.  The notebook
    calls them on two arrays of the same length N, and for such operands the
    model is numpy's.  For operands of different lengths numpy broadcasts a
    one-element array and raises ValueError otherwise; the model, which pairs
    the entries up, says nothing of those calls, and every statement about
    the sampler assumes the two arrays have the same length. *)
Definition np_minimum (x y : list Q) : list Q :=
  map (fun p => Qmin (fst p) (snd p)) (combine x y).

Definition np_maximum (x y : list Q) : list Q :=
  map (fun p => Qmax (fst p) (snd p)) (combine x y).

(** Scalar against array comparisons: [a > arr], [a >= arr], [a <= arr],
    [a < arr]. *)
Definition np_gt (a : Q) (arr : list Q) : list bool :=
  map (fun v => Qlt_bool v a) arr.

Definition np_ge (a : Q) (arr : list Q) : list bool :=
  map (fun v => Qle_bool v a) arr.

Definition np_le (a : Q) (arr : list Q) : list bool :=
  map (fun v => Qle_bool a v) arr.

Definition np_less (a : Q) (arr : list Q) : list bool :=
  map (fun v => Qlt_bool a v) arr.

(** [x & y] on boolean arrays, with numpy's broadcasting of one-dimensional
    operands: equal lengths are combined entry by entry; a one-element
    operand is combined with every entry of the other one (so with an empty
    array it gives the empty array); any other pair of lengths raises
    ValueError. *)
Definition np_and (x y : list bool) : outcome (list bool) :=
  if Nat.eqb (length x) (length y)
  then Done (map (fun p => andb (fst p) (snd p)) (combine x y))
  else
    match x, y with
    | [b], _ => Done (map (fun c => andb b c) y)
    | _, [c] => Done (map (fun b => andb b c) x)
    | _, _ => Raised ValueError
    end.

(** [arr[mask]]: boolean indexing returns a copy that holds the entries
    selected by the mask.  numpy compares the length of a boolean mask with
    that of the array only when the mask is not empty: a non-empty mask of
    another length raises IndexError, and an empty mask selects nothing from
    any array. *)
Fixpoint select (arr : list Q) (mask : list bool) : list Q :=
  match arr, mask with
  | v :: arr', b :: mask' =>
      if b then v :: select arr' mask' else select arr' mask'
  | _, _ => []
  end.

Definition np_index (arr : list Q) (mask : list bool) : outcome (list Q) :=
  if Nat.eqb (length arr) (length mask)
  then Done (select arr mask)
  else
    match mask with
    | [] => Done []
    | _ :: _ => Raised IndexError
    end.

(** [np.sum(mask)] on a boolean array: the number of [True] entries. *)
Definition np_sum_bool (mask : list bool) : nat :=
  length (filter (fun b => b) mask).

Definition np_zeros (n : nat) : list Q := repeat 0 n.

Definition np_concatenate (arrs : list (list Q)) : list Q := concat arrs.

Definition np_sum (arr : list Q) : Q := fold_right Qplus 0 arr.

(** [np.mean(arr)]: NaN on the empty array. *)
Definition np_mean (arr : list Q) : np_float :=
  match arr with
  | [] => NaN
  | _ :: _ => Fin (np_sum arr / inject_Z (Z.of_nat (length arr)))
  end.

(** ** The module-level state and the monad of the notebook's functions *)

(** One line printed by [optimize]. *)
Record line : Type := mkLine {
  p_low : Q;
  p_high : Q;
  p_mid : Q;
  p_cost_mid : np_float;
  p_cost_low : np_float
}.

Record store : Type := mkStore {
  v1 : list Q;
  v2 : list Q;
  vmin : list Q;
  vmax : list Q;
  stdout : list line
}.

Definition M (A : Type) : Type := store -> outcome A * store.

Definition ret {A} (x : A) : M A := fun s => (Done x, s).

Definition bind {A B} (m : M A) (k : A -> M B) : M B :=
  fun s =>
    match m s with
    | (Done x, s') => k x s'
    | (Raised e, s') => (Raised e, s')
    | (OutOfFuel, s') => (OutOfFuel, s')
    end.

Notation "x <- m ;; k" := (bind m (fun x => k))
  (at level 61, m at next level, right associativity).
Notation "m ;;; k" := (bind m (fun _ => k))
  (at level 61, right associativity).

(** Reading a module-level name. *)
Definition global {A} (f : store -> A) : M A := fun s => (Done (f s), s).

(** Lifting a numpy call that may raise. *)
Definition call {A} (o : outcome A) : M A := fun s => (o, s).

Definition print (l : line) : M unit :=
  fun s => (Done tt,
            mkStore (v1 s) (v2 s) (vmin s) (vmax s) (stdout s ++ [l])).

Definition out_of_fuel {A} : M A := fun s => (OutOfFuel, s).

(** ** The sampler (top of the code cell) *)

(** [u1] and [u2] are the two arrays returned by the two calls of
    [np.random.uniform(0, 1, N)]. *)
Definition draw (u1 u2 : list Q) : store :=
  mkStore u1 u2 (np_minimum u1 u2) (np_maximum u1 u2) [].

(** ** simulate_cost_vectorized *)

(** [(arr - a) ** 2] and [(arr + 1) ** 2], entry by entry and in exact
    arithmetic: no rounding, and no underflow of a small square to zero (for
    that see [F64.sq_diff]). *)
Definition sq_diff (a : Q) (arr : list Q) : list Q :=
  map (fun v => (v - a) ^ 2) arr.

Definition sq_succ (arr : list Q) : list Q :=
  map (fun v => (v + 1) ^ 2) arr.

(** The function reads the module-level [vmin] and [vmax] each time it names
    them, builds fresh arrays from them and assigns to local names only. *)
Definition simulate_cost_vectorized (a : Q) : M np_float :=
  (* Case 1: a > vmax *)
  vmax1 <- global vmax ;;
  let case1 := np_gt a vmax1 in
  vmin1 <- global vmin ;;
  sel1 <- call (np_index vmin1 case1) ;;
  let cost1 := sq_diff a sel1 in
  (* Case 2: vmin <= a <= vmax *)
  vmin2 <- global vmin ;;
  vmax2 <- global vmax ;;
  case2 <- call (np_and (np_ge a vmin2) (np_le a vmax2)) ;;
  let cost2 := np_zeros (np_sum_bool case2) in
  (* Case 3: a < vmin *)
  vmin3 <- global vmin ;;
  let case3 := np_less a vmin3 in
  vmin3' <- global vmin ;;
  sel3 <- call (np_index vmin3' case3) ;;
  let cost3 := sq_succ sel3 in
  let all_costs := np_concatenate [cost1; cost2; cost3] in
  ret (np_mean all_costs).

(** ** optimize *)

(** [epsilon = 1e-3].  The float64 nearest to [1e-3] and the rational
    [1/1000] both lie strictly between [2^-10] and [2^-9], the two widths the
    guard tells apart. *)
Definition epsilon : Q := 1 # 1000.

(** One pass through the body of the [while] loop. *)
Definition loop_body (low high : Q) : M (Q * Q) :=
  let mid := (low + high) / 2 in
  cost_mid <- simulate_cost_vectorized mid ;;
  cost_low <- simulate_cost_vectorized low ;;
  let next := if np_lt cost_mid cost_low then (mid, high) else (low, mid) in
  print (mkLine (fst next) (snd next) mid cost_mid cost_low) ;;;
  ret next.

Definition loop_guard (low high : Q) : bool := Qlt_bool epsilon (high - low).

Fixpoint optimize_loop (fuel : nat) (low high : Q) : M unit :=
  if loop_guard low high then
    match fuel with
    | O => out_of_fuel
    | S fuel' =>
        next <- loop_body low high ;;
        optimize_loop fuel' (fst next) (snd next)
    end
  else ret tt.

(** [optimize(a)]: the parameter is bound and never read; the function
    returns [None] and its output is the lines it prints.  [fuel] bounds the
    number of passes of the [while] loop the model is willing to run. *)
Definition optimize (a : Q) (fuel : nat) : M unit :=
  optimize_loop fuel 0 1.

(** The grid evaluation of the plotting cell:
    [costs = [simulate_cost_vectorized(a) for a in a_values]]. *)
Fixpoint eval_grid (a_values : list Q) : M (list np_float) :=
  match a_values with
  | [] => ret []
  | a :: rest =>
      c <- simulate_cost_vectorized a ;;
      cs <- eval_grid rest ;;
      ret (c :: cs)
  end.

(** ** The cost of one pair, as the specification words it *)

(** The three cases of the cost function, tested in the order in which the
    specification lists them. *)
Definition cost_piecewise (a lo hi : Q) : Q :=
  if Qlt_bool hi a then (lo - a) ^ 2
  else if Qle_bool lo a && Qle_bool a hi then 0
  else if Qlt_bool a lo then (lo + 1) ^ 2
  else 0.

(** The sample mean of the piecewise cost over the pairs of the sample. *)
Definition mean_piecewise (a : Q) (lo hi : list Q) : Q :=
  np_sum (map (fun p => cost_piecewise a (fst p) (snd p)) (combine lo hi))
  / inject_Z (Z.of_nat (length lo)).

(** ** What the array code computes *)

(** The boolean array [case2] once the shapes agree. *)
Definition case2_of (a : Q) (lo hi : list Q) : list bool :=
  map (fun p => andb (fst p) (snd p)) (combine (np_ge a lo) (np_le a hi)).

(** The array [all_costs] built by [simulate_cost_vectorized]. *)
Definition all_costs_of (a : Q) (lo hi : list Q) : list Q :=
  np_concatenate
    [ sq_diff a (select lo (np_gt a hi));
      np_zeros (np_sum_bool (case2_of a lo hi));
      sq_succ (select lo (np_less a lo)) ].

(** The entries one pair contributes to [all_costs]: one per mask that
    selects it. *)
Definition pair_costs (a : Q) (p : Q * Q) : list Q :=
  (if Qlt_bool (snd p) a then [(fst p - a) ^ 2] else [])
  ++ (if Qle_bool (fst p) a && Qle_bool a (snd p) then [0] else [])
  ++ (if Qlt_bool a (fst p) then [(fst p + 1) ^ 2] else []).

(** The cost of a single pair as the code computes it: the function run on
    the sample that holds this pair only. *)
Definition single (lo hi : Q) : store := mkStore [lo] [hi] [lo] [hi] [].

Definition pair_cost (a lo hi : Q) : outcome np_float :=
  fst (simulate_cost_vectorized a (single lo hi)).

Definition same_shape (s : store) : Prop := length (vmin s) = length (vmax s).

Definition arrays_of (s : store) : list Q * list Q * list Q * list Q :=
  (v1 s, v2 s, vmin s, vmax s).

(** The store after [optimize] has printed [ls]. *)
Definition with_lines (s : store) (ls : list line) : store :=
  mkStore (v1 s) (v2 s) (vmin s) (vmax s) (stdout s ++ ls).

(** The value the function returns on same-shaped arrays. *)
Definition cost_at (a : Q) (s : store) : np_float :=
  np_mean (all_costs_of a (vmin s) (vmax s)).

(** The pair [(low, high)] chosen by one pass of the loop body. *)
Definition next_bounds (low high : Q) (s : store) : Q * Q :=
  let mid := (low + high) / 2 in
  if np_lt (cost_at mid s) (cost_at low s) then (mid, high) else (low, mid).

(** The line printed by one pass of the loop body. *)
Definition printed (low high : Q) (s : store) : line :=
  let mid := (low + high) / 2 in
  mkLine (fst (next_bounds low high s)) (snd (next_bounds low high s)) mid
         (cost_at mid s) (cost_at low s).

(** The interval width that leaves [r] more iterations to run. *)
Fixpoint width (r : nat) : Q :=
  match r with
  | O => 1 # 1024
  | S r' => 2 * width r'
  end.

(** The configurations [(low, high, store)] at the head of the [while] loop
    of [optimize] started in store [s0]: the initial one, and the one after
    each pass through the body taken with the guard true. *)
Inductive loop_head (s0 : store) : Q -> Q -> store -> Prop :=
| head_start : loop_head s0 0 1 s0
| head_iter low high s next s' :
    loop_head s0 low high s ->
    loop_guard low high = true ->
    loop_body low high s = (Done next, s') ->
    loop_head s0 (fst next) (snd next) s'.

(** ** Further vocabulary for the sampler, the printed trace and the grid *)

(** A speed or a threshold of the shifted frame. *)
Definition in01 (q : Q) : Prop := 0 <= q /\ q <= 1.

(** The lines [optimize] prints in [r] passes started from [(low, high)]:
    each pass prints its line and goes on from the bounds it chose. *)
Fixpoint bisection_trace (r : nat) (low high : Q) (s : store) : list line :=
  match r with
  | O => []
  | S r' =>
      printed low high s
      :: bisection_trace r' (fst (next_bounds low high s))
                            (snd (next_bounds low high s)) s
  end.

(** [np.linspace(start, stop, num)] with the default [endpoint=True]:
    [num] evenly spaced values, the last one set to [stop]; a single value
    is [start]. *)
Definition np_linspace (start stop : Q) (num : nat) : list Q :=
  match num with
  | O => []
  | S O => [start]
  | S (S k as div) =>
      let step := (stop - start) / inject_Z (Z.of_nat div) in
      map (fun i => inject_Z (Z.of_nat i) * step + start) (seq 0 div)
      ++ [stop]
  end.

(** The first two lines of the plotting cell:
    [a_values = np.linspace(0, 1, 1000)] and the list of costs over it. *)
Definition a_values : list Q := np_linspace 0 1 1000.

Definition grid_costs : M (list np_float) := eval_grid a_values.

(** Two returned values that denote the same float: both NaN, or equal
    rationals. *)
Definition np_float_eq (x y : np_float) : Prop :=
  match x, y with
  | Fin p, Fin q => p == q
  | NaN, NaN => True
  | _, _ => False
  end.

(** The stores on which [simulate_cost_vectorized] returns a value: arrays
    of equal length, or an empty [vmax] beside a one-element [vmin]. *)
Definition evaluable (s : store) : Prop :=
  same_shape s \/ (vmax s = [] /\ length (vmin s) = 1%nat).


(** ** The cost function over binary64 *)

(** The same array code over the kernel's binary64 floats, with IEEE
    comparisons and correctly rounded operations.  [x ** 2] is numpy's
    square, one multiplication; [np.sum] adds from left to right, which is
    what numpy does on arrays of fewer than eight entries (longer arrays are
    summed pairwise, with other roundings). *)
Module F64.

Definition np_gt (a : float) (arr : list float) : list bool :=
  map (fun v => PrimFloat.ltb v a) arr.

Definition np_ge (a : float) (arr : list float) : list bool :=
  map (fun v => PrimFloat.leb v a) arr.

Definition np_le (a : float) (arr : list float) : list bool :=
  map (fun v => PrimFloat.leb a v) arr.

Definition np_less (a : float) (arr : list float) : list bool :=
  map (fun v => PrimFloat.ltb a v) arr.

Fixpoint select (arr : list float) (mask : list bool) : list float :=
  match arr, mask with
  | v :: arr', b :: mask' =>
      if b then v :: select arr' mask' else select arr' mask'
  | _, _ => []
  end.

Definition np_index (arr : list float) (mask : list bool)
  : outcome (list float) :=
  if Nat.eqb (length arr) (length mask)
  then Done (select arr mask)
  else
    match mask with
    | [] => Done []
    | _ :: _ => Raised IndexError
    end.

Definition np_zeros (n : nat) : list float := repeat PrimFloat.zero n.

Definition np_sum (arr : list float) : float :=
  match arr with
  | [] => PrimFloat.zero
  | x :: rest => fold_left PrimFloat.add rest x
  end.

Definition np_mean (arr : list float) : float :=
  match arr with
  | [] => PrimFloat.nan
  | _ :: _ =>
      PrimFloat.div (np_sum arr)
        (PrimFloat.of_uint63 (Uint63.of_Z (Z.of_nat (length arr))))
  end.

Definition sq_diff (a : float) (arr : list float) : list float :=
  map (fun v => let d := PrimFloat.sub v a in PrimFloat.mul d d) arr.

Definition sq_succ (arr : list float) : list float :=
  map (fun v => let u := PrimFloat.add v PrimFloat.one in PrimFloat.mul u u)
      arr.

Definition simulate_cost_vectorized (a : float) (vmin vmax : list float)
  : outcome float :=
  let case1 := np_gt a vmax in
  match np_index vmin case1 with
  | Done sel1 =>
      let cost1 := sq_diff a sel1 in
      match np_and (np_ge a vmin) (np_le a vmax) with
      | Done case2 =>
          let cost2 := np_zeros (np_sum_bool case2) in
          let case3 := np_less a vmin in
          match np_index vmin case3 with
          | Done sel3 =>
              let cost3 := sq_succ sel3 in
              let all_costs := cost1 ++ cost2 ++ cost3 in
              Done (np_mean all_costs)
          | Raised e => Raised e
          | OutOfFuel => OutOfFuel
          end
      | Raised e => Raised e
      | OutOfFuel => OutOfFuel
      end
  | Raised e => Raised e
  | OutOfFuel => OutOfFuel
  end.

End F64.

(** * Properties *)

(** ** Comparisons *)

Lemma Qlt_bool_iff x y : Qlt_bool x y = true <-> x < y.
Proof.
  unfold Qlt_bool. rewrite negb_true_iff.
  split; intro H.
  - apply Qnot_le_lt. intro L. apply Qle_bool_iff in L. congruence.
  - destruct (Qle_bool y x) eqn:E; [|reflexivity].
    apply Qle_bool_iff in E. apply Qlt_not_le in H. contradiction.
Qed.

Lemma Qlt_bool_false x y : Qlt_bool x y = false <-> y <= x.
Proof.
  unfold Qlt_bool. rewrite negb_false_iff. apply Qle_bool_iff.
Qed.

Lemma Qle_bool_false x y : Qle_bool x y = false <-> y < x.
Proof.
  rewrite <- Qlt_bool_iff. unfold Qlt_bool.
  destruct (Qle_bool x y); simpl; intuition congruence.
Qed.

(** Turn every boolean comparison in the context into its proposition. *)
Ltac reflect_cmp :=
  repeat match goal with
  | H : Qlt_bool _ _ = true |- _ => apply Qlt_bool_iff in H
  | H : Qlt_bool _ _ = false |- _ => apply Qlt_bool_false in H
  | H : Qle_bool _ _ = true |- _ => apply Qle_bool_iff in H
  | H : Qle_bool _ _ = false |- _ => apply Qle_bool_false in H
  end.

(** ** Sums and permutations *)

Lemma np_sum_app l l' : np_sum (l ++ l') == np_sum l + np_sum l'.
Proof.
  induction l as [|x l IH]; simpl.
  - ring.
  - rewrite IH. ring.
Qed.

Lemma np_sum_perm l l' : Permutation l l' -> np_sum l == np_sum l'.
Proof.
  induction 1 as [|x l l' _ IH|x y l|l l' l'' _ IH1 _ IH2]; simpl.
  - reflexivity.
  - rewrite IH. reflexivity.
  - ring.
  - rewrite IH1. exact IH2.
Qed.

Lemma np_sum_nonneg l : Forall (fun c => 0 <= c) l -> 0 <= np_sum l.
Proof.
  induction 1 as [|x l Hx _ IH]; simpl.
  - apply Qle_refl.
  - lra.
Qed.

(** ** The arrays built by the function *)

Lemma perm_regroup (x y z A B C : list Q) :
  Permutation ((x ++ A) ++ (y ++ B) ++ (z ++ C))
              ((x ++ y ++ z) ++ A ++ B ++ C).
Proof.
  rewrite <- !app_assoc.
  apply Permutation_app_head.
  transitivity (y ++ A ++ B ++ z ++ C).
  - apply Permutation_app_swap_app.
  - apply Permutation_app_head.
    transitivity (A ++ z ++ B ++ C).
    + apply Permutation_app_head, Permutation_app_swap_app.
    + apply Permutation_app_swap_app.
Qed.

Lemma all_costs_split a l lo h hi :
  all_costs_of a (l :: lo) (h :: hi) =
  ((if Qlt_bool h a then [(l - a) ^ 2] else [])
     ++ sq_diff a (select lo (np_gt a hi)))
  ++ ((if Qle_bool l a && Qle_bool a h then [0] else [])
        ++ np_zeros (np_sum_bool (case2_of a lo hi)))
  ++ ((if Qlt_bool a l then [(l + 1) ^ 2] else [])
        ++ sq_succ (select lo (np_less a lo))).
Proof.
  unfold all_costs_of, case2_of, np_concatenate, np_zeros, np_sum_bool,
    sq_diff, sq_succ.
  cbn [concat np_gt np_ge np_le np_less map combine select filter fst snd].
  rewrite !app_nil_r.
  destruct (Qlt_bool h a), (Qle_bool l a && Qle_bool a h), (Qlt_bool a l);
    reflexivity.
Qed.

Lemma all_costs_cons a l lo h hi :
  Permutation (all_costs_of a (l :: lo) (h :: hi))
              (pair_costs a (l, h) ++ all_costs_of a lo hi).
Proof.
  rewrite all_costs_split.
  replace (all_costs_of a lo hi)
    with (sq_diff a (select lo (np_gt a hi))
          ++ np_zeros (np_sum_bool (case2_of a lo hi))
          ++ sq_succ (select lo (np_less a lo))).
  - apply perm_regroup.
  - unfold all_costs_of, np_concatenate. simpl. now rewrite app_nil_r.
Qed.

(** With equal shapes, [all_costs] holds exactly the entries the pairs
    contribute, in some order. *)
Lemma all_costs_perm a lo : forall hi,
  length lo = length hi ->
  Permutation (all_costs_of a lo hi) (flat_map (pair_costs a) (combine lo hi)).
Proof.
  induction lo as [|l lo IH]; intros [|h hi] Hlen; try discriminate.
  - reflexivity.
  - simpl in Hlen. injection Hlen as Hlen.
    rewrite all_costs_cons.
    cbn [combine flat_map].
    apply Permutation_app_head, IH, Hlen.
Qed.

(** On same-shaped arrays the function returns the mean of [all_costs] and
    leaves the store as it found it. *)
Lemma simulate_run a s :
  same_shape s ->
  simulate_cost_vectorized a s =
  (Done (np_mean (all_costs_of a (vmin s) (vmax s))), s).
Proof.
  unfold same_shape. intro Hlen.
  unfold simulate_cost_vectorized, bind, global, call, ret, np_index, np_and.
  unfold np_gt, np_ge, np_le, np_less.
  rewrite !length_map, <- Hlen, !Nat.eqb_refl.
  reflexivity.
Qed.

(** A non-empty [vmax] and a [vmin] of another length make the first
    boolean index raise. *)
Lemma simulate_raise a s :
  vmax s <> [] ->
  ~ same_shape s ->
  simulate_cost_vectorized a s = (Raised IndexError, s).
Proof.
  unfold same_shape. intros Hne Hlen.
  unfold simulate_cost_vectorized, bind, global, call, np_index.
  unfold np_gt. rewrite length_map.
  apply Nat.eqb_neq in Hlen. rewrite Hlen.
  destruct (vmax s); [congruence | reflexivity].
Qed.

(** With an empty [vmax] the first index selects nothing; a [vmin] of two
    or more entries then makes the [&] of the middle mask raise. *)
Lemma simulate_raise_value a s :
  vmax s = [] ->
  (2 <= length (vmin s))%nat ->
  simulate_cost_vectorized a s = (Raised ValueError, s).
Proof.
  intros Hmax Hlen.
  unfold simulate_cost_vectorized, bind, global, call.
  rewrite Hmax.
  destruct (vmin s) as [|x [|y r]]; cbn [length] in Hlen; try lia.
  reflexivity.
Qed.

(** With an empty [vmax] and a single [vmin] the middle mask broadcasts to
    the empty array, and the function returns the mean of what the last
    branch selects. *)
Lemma simulate_run_single a s :
  vmax s = [] ->
  length (vmin s) = 1%nat ->
  simulate_cost_vectorized a s =
  (Done (np_mean (all_costs_of a (vmin s) (vmax s))), s).
Proof.
  intros Hmax Hlen.
  unfold simulate_cost_vectorized, bind, global, call, ret.
  rewrite Hmax.
  destruct (vmin s) as [|x [|y r]]; try discriminate.
  unfold np_index, np_and, np_less, np_ge, np_le, np_gt.
  cbn [map length Nat.eqb].
  reflexivity.
Qed.

(** The four shapes of the store. *)
Lemma shape_cases s :
  same_shape s \/
  (vmax s <> [] /\ ~ same_shape s) \/
  (vmax s = [] /\ length (vmin s) = 1%nat) \/
  (vmax s = [] /\ (2 <= length (vmin s))%nat).
Proof.
  unfold same_shape.
  destruct (vmax s) as [|h hi] eqn:E.
  - destruct (vmin s) as [|x [|y r]]; cbn [length].
    + left. reflexivity.
    + right. right. left. split; reflexivity.
    + right. right. right. split; [reflexivity | lia].
  - destruct (Nat.eq_dec (length (vmin s)) (length (h :: hi))) as [L|L].
    + left. exact L.
    + right. left. split; [discriminate | exact L].
Qed.

(** The function never writes to the store. *)
Lemma simulate_frame a s : snd (simulate_cost_vectorized a s) = s.
Proof.
  destruct (shape_cases s) as [E|[[N E]|[[M E]|[M E]]]].
  - rewrite simulate_run by exact E. reflexivity.
  - rewrite simulate_raise by assumption. reflexivity.
  - rewrite simulate_run_single by assumption. reflexivity.
  - rewrite simulate_raise_value by assumption. reflexivity.
Qed.

Lemma draw_same_shape u1 u2 : same_shape (draw u1 u2).
Proof.
  unfold same_shape, draw, np_minimum, np_maximum. simpl.
  now rewrite !length_map.
Qed.

(** ** Squares *)


(** ** One pair *)

(** Every pair is selected by at least one of the three masks. *)
Lemma pair_costs_nonempty a p : pair_costs a p <> [].
Proof.
  destruct p as [lo hi]. unfold pair_costs. cbn [fst snd].
  destruct (Qlt_bool hi a) eqn:E1; [discriminate|].
  destruct (Qle_bool lo a) eqn:E2, (Qle_bool a hi) eqn:E3;
    cbn [andb app]; try discriminate;
    destruct (Qlt_bool a lo) eqn:E4; try discriminate;
    reflect_cmp; lra.
Qed.

(** An ordered pair is selected by exactly one mask, and its entry is the
    piecewise cost. *)
Lemma pair_costs_ordered a lo hi :
  lo <= hi -> pair_costs a (lo, hi) = [cost_piecewise a lo hi].
Proof.
  intro Hle. unfold pair_costs, cost_piecewise. cbn [fst snd].
  destruct (Qlt_bool hi a) eqn:E1, (Qle_bool lo a) eqn:E2,
    (Qle_bool a hi) eqn:E3, (Qlt_bool a lo) eqn:E4;
    cbn [andb app]; try reflexivity; reflect_cmp; lra.
Qed.

Lemma pair_costs_nonneg a p : Forall (fun c => 0 <= c) (pair_costs a p).
Proof.
  destruct p as [lo hi]. unfold pair_costs. cbn [fst snd].
  pose proof (Qsqr_nonneg (lo - a)) as H1.
  pose proof (Qsqr_nonneg (lo + 1)) as H3.
  destruct (Qlt_bool hi a), (Qle_bool lo a && Qle_bool a hi), (Qlt_bool a lo);
    cbn [app]; repeat (constructor; try assumption); apply Qle_refl.
Qed.

Lemma flat_map_ordered a lo : forall hi,
  Forall2 Qle lo hi ->
  flat_map (pair_costs a) (combine lo hi) =
  map (fun p => cost_piecewise a (fst p) (snd p)) (combine lo hi).
Proof.
  induction lo as [|l lo IH]; intros hi H; inversion H; subst.
  - reflexivity.
  - cbn [combine flat_map map fst snd].
    rewrite pair_costs_ordered by assumption.
    rewrite IH by assumption. reflexivity.
Qed.


(** The function on a one-pair sample returns that pair's piecewise cost. *)
Lemma pair_cost_piecewise a lo hi :
  lo <= hi ->
  exists c, pair_cost a lo hi = Done (Fin c) /\ c == cost_piecewise a lo hi.
Proof.
  intro Hle. unfold pair_cost.
  rewrite simulate_run by reflexivity.
  cbn [fst vmin vmax single].
  unfold all_costs_of, case2_of, np_concatenate, np_zeros, np_sum_bool,
    sq_diff, sq_succ, cost_piecewise.
  cbn [concat np_gt np_ge np_le np_less map combine select filter fst snd].
  destruct (Qlt_bool hi a) eqn:E1, (Qle_bool lo a) eqn:E2,
    (Qle_bool a hi) eqn:E3, (Qlt_bool a lo) eqn:E4;
    cbn [andb app map select filter length repeat np_mean np_sum fold_right];
    try (reflect_cmp; lra);
    (eexists; split; [reflexivity|]);
    cbn [Z.of_nat Pos.of_succ_nat]; field.
Qed.

(** ** The whole sample *)

Lemma all_costs_nonempty a lo hi :
  length lo = length hi -> lo <> [] -> all_costs_of a lo hi <> [].
Proof.
  intros Hlen Hne E.
  destruct lo as [|l lo]; [congruence|].
  destruct hi as [|h hi]; [discriminate|].
  pose proof (all_costs_cons a l lo h hi) as P.
  rewrite E in P. apply Permutation_nil in P.
  apply app_eq_nil in P. destruct P as [P _].
  exact (pair_costs_nonempty a (l, h) P).
Qed.

Lemma all_costs_nonneg a lo hi :
  length lo = length hi -> Forall (fun c => 0 <= c) (all_costs_of a lo hi).
Proof.
  intro Hlen.
  apply (Permutation_Forall (Permutation_sym (all_costs_perm a lo hi Hlen))).
  apply Forall_flat_map, Forall_forall.
  intros p _. apply pair_costs_nonneg.
Qed.

Lemma np_mean_fin arr :
  arr <> [] ->
  np_mean arr = Fin (np_sum arr / inject_Z (Z.of_nat (length arr))).
Proof.
  destruct arr; [congruence | reflexivity].
Qed.

Lemma length_pos_Q (arr : list Q) :
  arr <> [] -> 0 < inject_Z (Z.of_nat (length arr)).
Proof.
  intro Hne. destruct arr as [|x arr]; [congruence|].
  change 0 with (inject_Z 0). rewrite <- Zlt_Qlt.
  cbn [length]. lia.
Qed.

(** The sampler orders every pair and gives both arrays the same length. *)
Lemma draw_ordered u1 u2 : Forall2 Qle (vmin (draw u1 u2)) (vmax (draw u1 u2)).
Proof.
  cbn [vmin vmax draw]. unfold np_minimum, np_maximum.
  induction (combine u1 u2) as [|p l IH]; cbn [map]; constructor.
  - apply Qle_trans with (fst p); [apply Q.le_min_l | apply Q.le_max_l].
  - exact IH.
Qed.

(** C1.  On a non-empty sample whose pairs are ordered ([vmin <= vmax]
    entry by entry), [simulate_cost_vectorized a] returns the arithmetic
    mean of an array [costs] that holds, up to order, exactly one entry per
    drawn pair, namely the pair's piecewise cost: [(vmin - a)^2] when
    [a > vmax], [0] when [vmin <= a <= vmax], [(vmin + 1)^2] when
    [a < vmin].  Hence it is the sample mean of the piecewise cost over all
    N pairs.  The bounds [0 <= vmin], [vmax <= 1] and [0 <= a <= 1] are not
    needed. *)
Theorem simulate_cost_is_sample_mean (a : Q) (s : store) :
  Forall2 Qle (vmin s) (vmax s) ->
  vmin s <> [] ->
  exists costs m,
    simulate_cost_vectorized a s = (Done (Fin m), s) /\
    Permutation costs
      (map (fun p => cost_piecewise a (fst p) (snd p))
           (combine (vmin s) (vmax s))) /\
    length costs = length (vmin s) /\
    m = np_sum costs / inject_Z (Z.of_nat (length costs)) /\
    m == mean_piecewise a (vmin s) (vmax s).
Proof.
  intros Hord Hne.
  pose proof (Forall2_length Hord) as Hlen.
  pose proof (all_costs_perm a _ _ Hlen) as P.
  rewrite (flat_map_ordered a _ _ Hord) in P.
  assert (Hn : length (all_costs_of a (vmin s) (vmax s)) = length (vmin s)).
  { rewrite (Permutation_length P), length_map, length_combine, <- Hlen.
    apply Nat.min_id. }
  exists (all_costs_of a (vmin s) (vmax s)).
  eexists. split; [|split; [exact P | split; [exact Hn | split]]].
  - rewrite simulate_run by exact Hlen.
    rewrite np_mean_fin by (apply all_costs_nonempty; assumption).
    reflexivity.
  - reflexivity.
  - unfold mean_piecewise. rewrite Hn, (np_sum_perm _ _ P). reflexivity.
Qed.

Lemma simulate_cost_is_sample_mean_witness :
  let s := draw [7#10; 1#10; 9#10] [8#10; 3#10; 2#10] in
  exists costs m,
    simulate_cost_vectorized (1#2) s = (Done (Fin m), s) /\
    Permutation costs
      (map (fun p => cost_piecewise (1#2) (fst p) (snd p))
           (combine (vmin s) (vmax s))) /\
    length costs = length (vmin s) /\
    m = np_sum costs / inject_Z (Z.of_nat (length costs)) /\
    m == mean_piecewise (1#2) (vmin s) (vmax s).
Proof.
  intro s.
  apply (simulate_cost_is_sample_mean (1#2) s).
  - apply draw_ordered.
  - discriminate.
Defined.





(** At the distance [2^-537] the binary64 square is the smallest positive
    number [2^-1074], not zero. *)
Lemma positive_cost_at_underflow_width_binary64 :
  F64.simulate_cost_vectorized 0x1p-537%float [0%float] [0%float]
  = Done 0x1p-1074%float.
Proof.
  vm_compute. reflexivity.
Qed.

(** C6.  On a non-empty sample with arrays of equal length, every entry of
    [all_costs] (every individual per-pair cost) is nonnegative and the
    value the function returns is a nonnegative number.  No bound on the
    speeds or on the threshold is needed. *)
Theorem simulate_cost_nonneg (a : Q) (s : store) :
  same_shape s ->
  vmin s <> [] ->
  exists m,
    simulate_cost_vectorized a s = (Done (Fin m), s) /\
    0 <= m /\
    Forall (fun c => 0 <= c) (all_costs_of a (vmin s) (vmax s)).
Proof.
  intros Hlen Hne.
  pose proof (all_costs_nonempty a _ _ Hlen Hne) as Hc.
  pose proof (all_costs_nonneg a _ _ Hlen) as Hpos.
  eexists. split; [|split; [|exact Hpos]].
  - rewrite simulate_run by exact Hlen.
    rewrite np_mean_fin by exact Hc. reflexivity.
  - apply Qle_shift_div_l.
    + apply length_pos_Q, Hc.
    + rewrite Qmult_0_l. apply np_sum_nonneg, Hpos.
Qed.

Lemma simulate_cost_nonneg_witness :
  let s := draw [7#10; 1#10; 9#10] [8#10; 3#10; 2#10] in
  exists m,
    simulate_cost_vectorized (1#2) s = (Done (Fin m), s) /\
    0 <= m /\
    Forall (fun c => 0 <= c) (all_costs_of (1#2) (vmin s) (vmax s)).
Proof.
  intro s.
  apply (simulate_cost_nonneg (1#2) s).
  - apply draw_same_shape.
  - discriminate.
Defined.

(** C9.  At a boundary threshold ([a == vmin] or [a == vmax]) of an ordered
    pair the computed cost is exactly [0]: the pair is selected by the
    inclusive middle mask and by neither of the two strict masks. *)
Theorem boundary_cost_zero (a lo hi : Q) :
  lo <= hi ->
  a == lo \/ a == hi ->
  pair_cost a lo hi = Done (Fin 0) /\
  np_gt a (vmax (single lo hi)) = [false] /\
  np_and (np_ge a (vmin (single lo hi))) (np_le a (vmax (single lo hi)))
    = Done [true] /\
  np_less a (vmin (single lo hi)) = [false].
Proof.
  intros Hle Hb.
  assert (E1 : Qlt_bool hi a = false) by (apply Qlt_bool_false; lra).
  assert (E2 : Qle_bool lo a = true) by (apply Qle_bool_iff; lra).
  assert (E3 : Qle_bool a hi = true) by (apply Qle_bool_iff; lra).
  assert (E4 : Qlt_bool a lo = false) by (apply Qlt_bool_false; lra).
  unfold pair_cost. rewrite simulate_run by reflexivity.
  unfold all_costs_of, case2_of, np_and.
  cbn [fst vmin vmax single np_gt np_ge np_le np_less map combine select
       length Nat.eqb].
  rewrite E1, E2, E3, E4.
  repeat split; reflexivity.
Qed.

Lemma boundary_cost_zero_witness :
  pair_cost (3#10) (3#10) (7#10) = Done (Fin 0) /\
  np_gt (3#10) (vmax (single (3#10) (7#10))) = [false] /\
  np_and (np_ge (3#10) (vmin (single (3#10) (7#10))))
         (np_le (3#10) (vmax (single (3#10) (7#10)))) = Done [true] /\
  np_less (3#10) (vmin (single (3#10) (7#10))) = [false].
Proof.
  apply (boundary_cost_zero (3#10) (3#10) (7#10)).
  - unfold Qle; simpl; lia.
  - left. reflexivity.
Defined.

(** ** The two worked examples of the problem statement *)

(** In the slow-lane branch ([a > vmax]) the code charges [(vmin - a)^2];
    for the pair [(0, 1/10)] that is [a^2]. *)
Lemma slow_lane_branch_cost (a : Q) :
  1#10 < a ->
  exists c, pair_cost a 0 (1#10) = Done (Fin c) /\ c == a ^ 2.
Proof.
  intro Ha.
  destruct (pair_cost_piecewise a 0 (1#10)) as (c & Hrun & Hc);
    [unfold Qle; simpl; lia|].
  exists c. split; [exact Hrun|].
  rewrite Hc. unfold cost_piecewise.
  apply Qlt_bool_iff in Ha. rewrite Ha.
  change ((0 - a) ^ 2) with ((0 - a) * (0 - a)).
  change (a ^ 2) with (a * a). ring.
Qed.

(** C3.  The code at the example [v1 = 0.8], [v2 = 0.7], [a = 0.2] of the
    shifted frame: the pair falls into the branch [a < vmin] and is charged
    [(0.7 + 1)^2 = 2.89], not the [0.25] of the example. *)
Theorem example_fast_lane_cost :
  exists c,
    fst (simulate_cost_vectorized (2#10) (draw [8#10] [7#10])) = Done (Fin c) /\
    c == 289#100 /\
    ~ c == 25#100.
Proof.
  eexists. split; [vm_compute; reflexivity|].
  split; [reflexivity|].
  unfold Qeq; simpl; lia.
Qed.

(** C4.  The code at the example [v1 = 0.1], [v2 = 0.0] with both cars in
    the slow lane, at the threshold [a = 0.5]: the pair falls into the branch
    [a > vmax] and is charged [(0 - 0.5)^2 = 0.25], not [1]. *)
Theorem example_slow_lane_cost :
  exists c,
    fst (simulate_cost_vectorized (1#2) (draw [1#10] [0])) = Done (Fin c) /\
    c == 1#4 /\
    ~ c == 1.
Proof.
  eexists. split; [vm_compute; reflexivity|].
  split; [reflexivity|].
  unfold Qeq; simpl; lia.
Qed.

(** ** Frame *)

Lemma eval_grid_frame a_values : forall s, snd (eval_grid a_values s) = s.
Proof.
  induction a_values as [|a rest IH]; intro s; cbn [eval_grid].
  - reflexivity.
  - unfold bind.
    pose proof (simulate_frame a s) as F.
    destruct (simulate_cost_vectorized a s) as [[c|e|] s1];
      cbn [snd] in F; subst s1; try reflexivity.
    pose proof (IH s) as G.
    destruct (eval_grid rest s) as [[cs|e|] s2];
      cbn [snd] in G; subst s2; reflexivity.
Qed.

(** C7.  Evaluating the cost at any sequence of thresholds returns the store
    it started from, so the arrays [v1], [v2], [vmin], [vmax] are unchanged;
    and an evaluation at [a] made after a first evaluation at [a] and any
    further sequence of evaluations returns what the first one returned. *)
Theorem evaluations_leave_sample (a_values : list Q) (a : Q) (s : store) :
  snd (eval_grid a_values s) = s /\
  arrays_of (snd (eval_grid a_values s)) = arrays_of s /\
  fst (simulate_cost_vectorized a
         (snd (eval_grid a_values (snd (simulate_cost_vectorized a s)))))
  = fst (simulate_cost_vectorized a s).
Proof.
  split; [apply eval_grid_frame|].
  split.
  - rewrite eval_grid_frame. reflexivity.
  - rewrite eval_grid_frame, simulate_frame. reflexivity.
Qed.

(** ** The bisection *)

Lemma with_lines_shape s ls : same_shape s -> same_shape (with_lines s ls).
Proof. exact (fun H => H). Qed.

Lemma with_lines_nil s : with_lines s [] = s.
Proof. destruct s. unfold with_lines. cbn. now rewrite app_nil_r. Qed.

Lemma with_lines_app s l1 l2 :
  with_lines (with_lines s l1) l2 = with_lines s (l1 ++ l2).
Proof. unfold with_lines. cbn. now rewrite app_assoc. Qed.

Lemma with_lines_arrays s ls : arrays_of (with_lines s ls) = arrays_of s.
Proof. reflexivity. Qed.

(** One pass through the body on same-shaped arrays. *)
Lemma loop_body_run low high s :
  same_shape s ->
  loop_body low high s =
  (Done (next_bounds low high s), with_lines s [printed low high s]).
Proof.
  intro Hs. unfold loop_body, bind.
  rewrite !simulate_run by exact Hs.
  reflexivity.
Qed.

(** A pass that completes moves exactly one bound to the midpoint. *)
Lemma loop_body_next low high s next s' :
  loop_body low high s = (Done next, s') ->
  next = ((low + high) / 2, high) \/ next = (low, (low + high) / 2).
Proof.
  unfold loop_body, bind.
  destruct (simulate_cost_vectorized ((low + high) / 2) s) as [[cm|e|] s1];
    try discriminate.
  destruct (simulate_cost_vectorized low s1) as [[cl|e|] s2];
    try discriminate.
  unfold print, ret.
  destruct (np_lt cm cl); intro H; injection H as H _; subst next; auto.
Qed.

Lemma halved low high next :
  next = ((low + high) / 2, high) \/ next = (low, (low + high) / 2) ->
  snd next - fst next == (high - low) / 2.
Proof.
  intros [H|H]; subst next; cbn [fst snd]; field.
Qed.

Lemma next_bounds_cases low high s :
  next_bounds low high s = ((low + high) / 2, high) \/
  next_bounds low high s = (low, (low + high) / 2).
Proof.
  unfold next_bounds. destruct (np_lt _ _); auto.
Qed.

Lemma width_lower r : 1 # 1024 <= width r.
Proof.
  induction r as [|r IH]; cbn [width].
  - apply Qle_refl.
  - lra.
Qed.

Lemma guard_iff low high : loop_guard low high = true <-> epsilon < high - low.
Proof. apply Qlt_bool_iff. Qed.

Lemma guard_stop low high :
  high - low == width 0 -> loop_guard low high = false.
Proof.
  intro H. apply Qlt_bool_false. rewrite H. unfold epsilon. cbn [width].
  unfold Qle; simpl; lia.
Qed.

Lemma guard_go low high r :
  high - low == width (S r) -> loop_guard low high = true.
Proof.
  intro H. apply Qlt_bool_iff. rewrite H. cbn [width]. unfold epsilon.
  pose proof (width_lower r). lra.
Qed.

(** The loop leaves at once when the guard is false. *)
Lemma loop_exit fuel low high s :
  loop_guard low high = false ->
  optimize_loop fuel low high s = (Done tt, s).
Proof.
  intro G. destruct fuel; cbn [optimize_loop]; rewrite G; reflexivity.
Qed.

(** From width [width r] the loop runs exactly [r] passes, given the fuel. *)
Lemma loop_runs r : forall fuel low high s,
  same_shape s ->
  high - low == width r ->
  (r <= fuel)%nat ->
  exists lines,
    optimize_loop fuel low high s = (Done tt, with_lines s lines) /\
    length lines = r.
Proof.
  induction r as [|r IH]; intros fuel low high s Hs Hw Hf.
  - exists []. split; [|reflexivity].
    rewrite with_lines_nil. apply loop_exit, guard_stop, Hw.
  - destruct fuel as [|fuel]; [lia|].
    cbn [optimize_loop]. rewrite (guard_go _ _ _ Hw).
    unfold bind. rewrite loop_body_run by exact Hs.
    pose proof (halved _ _ _ (next_bounds_cases low high s)) as Hh.
    destruct (IH fuel (fst (next_bounds low high s))
                (snd (next_bounds low high s))
                (with_lines s [printed low high s])) as (ls & Hrun & Hn).
    + apply with_lines_shape, Hs.
    + rewrite Hh, Hw. cbn [width]. field.
    + lia.
    + exists (printed low high s :: ls). split.
      * rewrite Hrun, with_lines_app. reflexivity.
      * cbn [length]. now rewrite Hn.
Qed.

(** With less fuel than passes to run, the model gives up. *)
Lemma loop_starves r : forall fuel low high s,
  same_shape s ->
  high - low == width r ->
  (fuel < r)%nat ->
  fst (optimize_loop fuel low high s) = OutOfFuel.
Proof.
  induction r as [|r IH]; intros fuel low high s Hs Hw Hf; [lia|].
  destruct fuel as [|fuel]; cbn [optimize_loop]; rewrite (guard_go _ _ _ Hw).
  - reflexivity.
  - unfold bind. rewrite loop_body_run by exact Hs.
    pose proof (halved _ _ _ (next_bounds_cases low high s)) as Hh.
    apply IH.
    + apply with_lines_shape, Hs.
    + rewrite Hh, Hw. cbn [width]. field.
    + lia.
Qed.

Lemma initial_width : 1 - 0 == width 10.
Proof. reflexivity. Qed.

(** With a non-empty [vmax] and a [vmin] of another length the first pass
    raises, and so does [optimize]. *)
Lemma optimize_raises a fuel s :
  vmax s <> [] ->
  ~ same_shape s ->
  optimize a (S fuel) s = (Raised IndexError, s).
Proof.
  intros Hne Hs. unfold optimize. cbn [optimize_loop].
  replace (loop_guard 0 1) with true by reflexivity.
  unfold bind, loop_body, bind.
  rewrite simulate_raise by assumption. reflexivity.
Qed.

(** [optimize] prints and leaves the sample arrays alone. *)
Lemma optimize_keeps_arrays a fuel s :
  same_shape s -> (10 <= fuel)%nat ->
  arrays_of (snd (optimize a fuel s)) = arrays_of s.
Proof.
  intros Hs Hf.
  destruct (loop_runs 10 fuel 0 1 s Hs initial_width Hf) as (ls & Hrun & _).
  unfold optimize. rewrite Hrun. apply with_lines_arrays.
Qed.

(** C5.  On a sample with arrays of equal length, [optimize] terminates.
    Each pass of the loop evaluates the cost at [mid = (low + high) / 2]
    and at [low], moves [low] to [mid] when the cost at [mid] is smaller and
    [high] to [mid] otherwise, prints one line, and so halves [high - low]
    exactly.  The loop is left as soon as [high - low <= 1e-3].  Started
    from [low = 0], [high = 1] it makes exactly ten passes: ten units of
    fuel are enough and nine are not. *)
Theorem optimize_terminates (a : Q) (s : store) (fuel : nat) :
  same_shape s ->
  (forall low high,
     let mid := (low + high) / 2 in
     exists cost_mid cost_low next,
       simulate_cost_vectorized mid s = (Done cost_mid, s) /\
       simulate_cost_vectorized low s = (Done cost_low, s) /\
       next = (if np_lt cost_mid cost_low then (mid, high) else (low, mid)) /\
       loop_body low high s =
         (Done next,
          with_lines s [mkLine (fst next) (snd next) mid cost_mid cost_low]) /\
       snd next - fst next == (high - low) / 2) /\
  (forall low high,
     high - low <= epsilon -> optimize_loop fuel low high s = (Done tt, s)) /\
  ((10 <= fuel)%nat ->
   exists lines,
     optimize a fuel s = (Done tt, with_lines s lines) /\
     length lines = 10%nat) /\
  ((fuel < 10)%nat -> fst (optimize a fuel s) = OutOfFuel).
Proof.
  intro Hs. repeat split.
  - intros low high mid.
    exists (cost_at mid s), (cost_at low s), (next_bounds low high s).
    repeat split.
    + apply simulate_run, Hs.
    + apply simulate_run, Hs.
    + apply loop_body_run, Hs.
    + apply halved, next_bounds_cases.
  - intros low high Hw. apply loop_exit, Qlt_bool_false, Hw.
  - intro Hf. apply (loop_runs 10 fuel 0 1 s Hs initial_width Hf).
  - intro Hf. apply (loop_starves 10 fuel 0 1 s Hs initial_width Hf).
Qed.

Lemma optimize_terminates_witness :
  let s := draw [7#10; 1#10; 9#10] [8#10; 3#10; 2#10] in
  exists lines,
    optimize (1#2) 10 s = (Done tt, with_lines s lines) /\
    length lines = 10%nat.
Proof.
  intro s.
  exact (proj1 (proj2 (proj2
           (optimize_terminates (1#2) s 10 (draw_same_shape _ _))))
         (le_n 10)).
Defined.

(** C8.  [optimize] never reads its parameter: for any two arguments the
    runs coincide, in their outcome and in the store they leave, which holds
    every printed line. *)
Theorem optimize_ignores_argument (x y : Q) (fuel : nat) (s : store) :
  optimize x fuel s = optimize y fuel s.
Proof.
  reflexivity.
Qed.

(** The configuration in which a completed run leaves the loop is one of
    the loop heads, and the guard is false there. *)
Lemma optimize_loop_heads s0 fuel : forall low high s s',
  loop_head s0 low high s ->
  optimize_loop fuel low high s = (Done tt, s') ->
  exists l h, loop_head s0 l h s' /\ loop_guard l h = false.
Proof.
  induction fuel as [|fuel IH]; intros low high s s' Hh;
    cbn [optimize_loop]; destruct (loop_guard low high) eqn:G.
  - discriminate.
  - intro H. injection H as <-. eauto.
  - unfold bind.
    destruct (loop_body low high s) as [[next|e|] s1] eqn:B;
      try discriminate.
    apply IH. apply (head_iter s0 low high s next s1 Hh G B).
  - intro H. injection H as <-. eauto.
Qed.

(** C10.  At every head of the loop of [optimize], that is before the first
    pass and after each pass, [0 <= low < high <= 1]; hence the two values
    passed to [simulate_cost_vectorized] in a pass, [mid = (low + high) / 2]
    and [low], lie in [[0, 1)]. *)
Theorem bisection_invariant (s0 : store) (low high : Q) (s : store) :
  loop_head s0 low high s ->
  (0 <= low /\ low < high /\ high <= 1) /\
  (0 <= (low + high) / 2 /\ (low + high) / 2 < 1) /\
  (0 <= low /\ low < 1).
Proof.
  intro H.
  assert (Inv : 0 <= low /\ low < high /\ high <= 1).
  { induction H as [|low high s next s' _ IH _ B].
    - repeat split; unfold Qle, Qlt; simpl; lia.
    - destruct IH as (H0 & Hlt & H1).
      assert (Em : (low + high) / 2 == (1#2) * low + (1#2) * high) by field.
      destruct (loop_body_next _ _ _ _ _ B) as [-> | ->]; cbn [fst snd];
        rewrite ?Em; repeat split; lra. }
  destruct Inv as (H0 & Hlt & H1).
  assert (Em : (low + high) / 2 == (1#2) * low + (1#2) * high) by field.
  rewrite Em. repeat split; lra.
Qed.

Lemma bisection_invariant_witness :
  let s0 := draw [7#10; 1#10; 9#10] [8#10; 3#10; 2#10] in
  let s1 := snd (loop_body 0 1 s0) in
  let low := 1#2 in
  let high := 1 in
  loop_head s0 low high s1 /\
  (0 <= low /\ low < high /\ high <= 1) /\
  (0 <= (low + high) / 2 /\ (low + high) / 2 < 1) /\
  (0 <= low /\ low < 1).
Proof.
  intros s0 s1 low high.
  assert (H : loop_head s0 low high s1).
  { apply (head_iter s0 0 1 s0 (1#2, 1) s1).
    - apply head_start.
    - reflexivity.
    - vm_compute. reflexivity. }
  split; [exact H|].
  apply (bisection_invariant s0 low high s1 H).
Defined.

(** * Further properties of the notebook's code *)

(** ** Errors and the empty sample *)

Lemma all_costs_empty a : all_costs_of a [] [] = [].
Proof. reflexivity. Qed.

(** X1.  What [simulate_cost_vectorized] does is decided by the lengths of
    [vmin] and [vmax] alone, whatever the threshold.  With equal lengths it
    returns a value.  With a non-empty [vmax] and a [vmin] of another
    length the first boolean index raises IndexError.  With an empty
    [vmax] the first index selects nothing and raises nothing: a [vmin] of
    one entry then gives a value (the middle mask broadcasts to the empty
    array), and a [vmin] of two or more entries raises ValueError from the
    [&] of the middle mask.  In every case the store is left as it was. *)
Theorem simulate_outcome_by_shape (a : Q) (s : store) :
  (length (vmin s) = length (vmax s) /\
   exists c, simulate_cost_vectorized a s = (Done c, s)) \/
  (vmax s <> [] /\ length (vmin s) <> length (vmax s) /\
   simulate_cost_vectorized a s = (Raised IndexError, s)) \/
  (vmax s = [] /\ length (vmin s) = 1%nat /\
   exists c, simulate_cost_vectorized a s = (Done c, s)) \/
  (vmax s = [] /\ (2 <= length (vmin s))%nat /\
   simulate_cost_vectorized a s = (Raised ValueError, s)).
Proof.
  destruct (shape_cases s) as [E|[[N E]|[[M E]|[M E]]]].
  - left. split; [exact E|]. eexists. apply simulate_run, E.
  - right. left. split; [exact N|]. split; [exact E|].
    apply simulate_raise; assumption.
  - right. right. left. split; [exact M|]. split; [exact E|].
    eexists. apply simulate_run_single; assumption.
  - right. right. right. split; [exact M|]. split; [exact E|].
    apply simulate_raise_value; assumption.
Qed.

(** The cases of X1 on concrete stores: with an empty [vmax] beside
    [vmin = [1/4]] the value returned at the threshold [0] is
    [(1/4 + 1)^2 = 25/16]. *)
Lemma simulate_outcome_by_shape_examples :
  fst (simulate_cost_vectorized 0 (mkStore [] [] [1#4] [1#2; 3#4] []))
    = Raised IndexError /\
  fst (simulate_cost_vectorized 0 (mkStore [] [] [] [1#2] []))
    = Raised IndexError /\
  (exists c,
     fst (simulate_cost_vectorized 0 (mkStore [] [] [1#4] [] []))
       = Done (Fin c) /\ c == 25 # 16) /\
  fst (simulate_cost_vectorized 0 (mkStore [] [] [1#4; 1#2] [] []))
    = Raised ValueError.
Proof.
  split; [reflexivity|]. split; [reflexivity|]. split; [|reflexivity].
  eexists. split; [vm_compute; reflexivity | reflexivity].
Qed.



(** ** Bounds on the cost *)

Lemma sq_le_1 (x : Q) : -1 <= x -> x <= 1 -> x ^ 2 <= 1.
Proof.
  intros Hl Hu.
  assert (H : 0 <= (1 - x) * (1 + x)) by (apply Qmult_le_0_compat; lra).
  assert (E : x ^ 2 == 1 - (1 - x) * (1 + x)).
  { change (x ^ 2) with (x * x). ring. }
  rewrite E. lra.
Qed.

Lemma sq_le_4 (x : Q) : 0 <= x -> x <= 2 -> x ^ 2 <= 4.
Proof.
  intros Hl Hu.
  assert (H : 0 <= (2 - x) * (2 + x)) by (apply Qmult_le_0_compat; lra).
  assert (E : x ^ 2 == 4 - (2 - x) * (2 + x)).
  { change (x ^ 2) with (x * x). ring. }
  rewrite E. lra.
Qed.

Lemma pair_costs_at_most_four a p :
  in01 a -> in01 (fst p) -> Forall (fun c => c <= 4) (pair_costs a p).
Proof.
  destruct p as [lo hi]. unfold in01, pair_costs. cbn [fst snd].
  intros [Ha0 Ha1] [Hl0 Hl1].
  assert (H1 : (lo - a) ^ 2 <= 4).
  { apply Qle_trans with 1; [apply sq_le_1; lra | lra]. }
  assert (H3 : (lo + 1) ^ 2 <= 4) by (apply sq_le_4; lra).
  destruct (Qlt_bool hi a), (Qle_bool lo a && Qle_bool a hi), (Qlt_bool a lo);
    cbn [app]; repeat (constructor; try assumption); lra.
Qed.

Lemma length_succ_Q (n : nat) :
  inject_Z (Z.of_nat (S n)) == inject_Z (Z.of_nat n) + 1.
Proof.
  rewrite Nat2Z.inj_succ. unfold Z.succ. rewrite inject_Z_plus. reflexivity.
Qed.

Lemma np_sum_at_most (B : Q) l :
  Forall (fun c => c <= B) l ->
  np_sum l <= B * inject_Z (Z.of_nat (length l)).
Proof.
  induction 1 as [|x l Hx _ IH].
  - cbn [np_sum fold_right length Z.of_nat]. change (inject_Z 0) with 0.
    rewrite Qmult_0_r. apply Qle_refl.
  - cbn [np_sum fold_right length]. rewrite length_succ_Q.
    change (fold_right Qplus 0 l) with (np_sum l). lra.
Qed.

(** X3.  With the speeds in [vmin] and the threshold in [[0, 1]], no entry
    of [all_costs] exceeds [4] (a stop from speed 1 to the shifted -1), and
    neither does the mean the function returns. *)
Theorem simulate_cost_at_most_four (a : Q) (s : store) :
  same_shape s ->
  vmin s <> [] ->
  in01 a ->
  Forall in01 (vmin s) ->
  exists m,
    simulate_cost_vectorized a s = (Done (Fin m), s) /\
    m <= 4 /\
    Forall (fun c => c <= 4) (all_costs_of a (vmin s) (vmax s)).
Proof.
  intros Hs Hne Ha Hv.
  pose proof (all_costs_nonempty a _ _ Hs Hne) as Hc.
  assert (Hall : Forall (fun c => c <= 4) (all_costs_of a (vmin s) (vmax s))).
  { apply (Permutation_Forall (Permutation_sym (all_costs_perm a _ _ Hs))).
    apply Forall_flat_map, Forall_forall.
    intros [lo hi] Hp. apply pair_costs_at_most_four; [exact Ha|].
    apply in_combine_l in Hp.
    rewrite Forall_forall in Hv. apply Hv, Hp. }
  eexists. split; [|split; [|exact Hall]].
  - rewrite simulate_run by exact Hs.
    rewrite np_mean_fin by exact Hc. reflexivity.
  - apply Qle_shift_div_r.
    + apply length_pos_Q, Hc.
    + apply np_sum_at_most, Hall.
Qed.

Lemma simulate_cost_at_most_four_witness :
  let s := draw [7#10; 1#10; 9#10] [8#10; 3#10; 2#10] in
  exists m,
    simulate_cost_vectorized (1#2) s = (Done (Fin m), s) /\
    m <= 4 /\
    Forall (fun c => c <= 4) (all_costs_of (1#2) (vmin s) (vmax s)).
Proof.
  intro s.
  apply (simulate_cost_at_most_four (1#2) s).
  - apply draw_same_shape.
  - discriminate.
  - split; unfold Qle; simpl; lia.
  - repeat constructor; vm_compute; discriminate.
Defined.

(** ** Thresholds outside the range of the sample *)

Lemma masks_below a lo : forall hi,
  Forall2 Qle lo hi ->
  Forall (fun v => a < v) lo ->
  select lo (np_gt a hi) = [] /\
  np_sum_bool (case2_of a lo hi) = 0%nat /\
  select lo (np_less a lo) = lo.
Proof.
  induction lo as [|l lo IH]; intros hi Hord Hb; inversion Hord; subst.
  - repeat split.
  - inversion Hb as [|? ? Hl Hb']; subst.
    destruct (IH _ H3 Hb') as (I1 & I2 & I3).
    assert (E1 : Qlt_bool y a = false) by (apply Qlt_bool_false; lra).
    assert (E2 : Qle_bool l a = false) by (apply Qle_bool_false; lra).
    assert (E4 : Qlt_bool a l = true) by (apply Qlt_bool_iff; lra).
    unfold case2_of, np_sum_bool, np_gt, np_ge, np_le, np_less in *.
    cbn [map combine select filter fst snd].
    rewrite E1, E2, E4. cbn [andb]. rewrite I1, I2, I3. repeat split.
Qed.

Lemma masks_above a lo : forall hi,
  Forall2 Qle lo hi ->
  Forall (fun v => v < a) hi ->
  select lo (np_gt a hi) = lo /\
  np_sum_bool (case2_of a lo hi) = 0%nat /\
  select lo (np_less a lo) = [].
Proof.
  induction lo as [|l lo IH]; intros hi Hord Hb; inversion Hord; subst.
  - repeat split.
  - inversion Hb as [|? ? Hl Hb']; subst.
    destruct (IH _ H3 Hb') as (I1 & I2 & I3).
    assert (E1 : Qlt_bool y a = true) by (apply Qlt_bool_iff; lra).
    assert (E3 : Qle_bool a y = false) by (apply Qle_bool_false; lra).
    assert (E4 : Qlt_bool a l = false) by (apply Qlt_bool_false; lra).
    unfold case2_of, np_sum_bool, np_gt, np_ge, np_le, np_less in *.
    cbn [map combine select filter fst snd].
    rewrite E1, E3, E4, andb_false_r. rewrite I1, I2, I3. repeat split.
Qed.

(** X4.  A threshold below every speed of an ordered sample puts all pairs
    in the branch [a < vmin]: [all_costs] is [(vmin + 1) ** 2], entry by
    entry and in order, and the function returns its mean.  The value does
    not depend on the threshold. *)
Theorem cost_below_all_speeds (a : Q) (s : store) :
  Forall2 Qle (vmin s) (vmax s) ->
  Forall (fun v => a < v) (vmin s) ->
  all_costs_of a (vmin s) (vmax s) = sq_succ (vmin s) /\
  simulate_cost_vectorized a s = (Done (np_mean (sq_succ (vmin s))), s).
Proof.
  intros Hord Hb.
  destruct (masks_below a _ _ Hord Hb) as (I1 & I2 & I3).
  assert (E : all_costs_of a (vmin s) (vmax s) = sq_succ (vmin s)).
  { unfold all_costs_of, np_concatenate. rewrite I1, I2, I3.
    cbn. now rewrite app_nil_r. }
  split; [exact E|].
  rewrite simulate_run by exact (Forall2_length Hord).
  now rewrite E.
Qed.

Lemma cost_below_all_speeds_witness :
  let s := draw [7#10; 1#10; 9#10] [8#10; 3#10; 2#10] in
  all_costs_of 0 (vmin s) (vmax s) = sq_succ (vmin s) /\
  simulate_cost_vectorized 0 s = (Done (np_mean (sq_succ (vmin s))), s).
Proof.
  intro s.
  apply (cost_below_all_speeds 0 s).
  - apply draw_ordered.
  - repeat constructor.
Defined.

(** X5.  A threshold above every speed of an ordered sample puts all pairs
    in the branch [a > vmax]: [all_costs] is [(vmin - a) ** 2], entry by
    entry and in order, and the function returns its mean. *)
Theorem cost_above_all_speeds (a : Q) (s : store) :
  Forall2 Qle (vmin s) (vmax s) ->
  Forall (fun v => v < a) (vmax s) ->
  all_costs_of a (vmin s) (vmax s) = sq_diff a (vmin s) /\
  simulate_cost_vectorized a s = (Done (np_mean (sq_diff a (vmin s))), s).
Proof.
  intros Hord Hb.
  destruct (masks_above a _ _ Hord Hb) as (I1 & I2 & I3).
  assert (E : all_costs_of a (vmin s) (vmax s) = sq_diff a (vmin s)).
  { unfold all_costs_of, np_concatenate. rewrite I1, I2, I3.
    cbn. now rewrite app_nil_r. }
  split; [exact E|].
  rewrite simulate_run by exact (Forall2_length Hord).
  now rewrite E.
Qed.

Lemma cost_above_all_speeds_witness :
  let s := draw [7#10; 1#10; 9#10] [8#10; 3#10; 2#10] in
  all_costs_of 1 (vmin s) (vmax s) = sq_diff 1 (vmin s) /\
  simulate_cost_vectorized 1 s = (Done (np_mean (sq_diff 1 (vmin s))), s).
Proof.
  intro s.
  apply (cost_above_all_speeds 1 s).
  - apply draw_ordered.
  - repeat constructor.
Defined.

(** ** The sampler *)

Lemma Qmin_in01 x y : in01 x -> in01 y -> in01 (Qmin x y).
Proof.
  unfold in01. intros Hx Hy.
  destruct (Q.min_spec x y) as [[_ E]|[_ E]]; rewrite E; assumption.
Qed.

Lemma Qmax_in01 x y : in01 x -> in01 y -> in01 (Qmax x y).
Proof.
  unfold in01. intros Hx Hy.
  destruct (Q.max_spec x y) as [[_ E]|[_ E]]; rewrite E; assumption.
Qed.

Lemma np_minimum_in01 u1 : forall u2,
  Forall in01 u1 -> Forall in01 u2 -> Forall in01 (np_minimum u1 u2).
Proof.
  unfold np_minimum.
  induction u1 as [|x u1 IH]; intros [|y u2] H1 H2; cbn [combine map];
    try constructor; inversion H1; inversion H2; subst.
  - apply Qmin_in01; assumption.
  - apply IH; assumption.
Qed.

Lemma np_maximum_in01 u1 : forall u2,
  Forall in01 u1 -> Forall in01 u2 -> Forall in01 (np_maximum u1 u2).
Proof.
  unfold np_maximum.
  induction u1 as [|x u1 IH]; intros [|y u2] H1 H2; cbn [combine map];
    try constructor; inversion H1; inversion H2; subst.
  - apply Qmax_in01; assumption.
  - apply IH; assumption.
Qed.

Lemma draw_length u1 u2 :
  length u1 = length u2 ->
  length (vmin (draw u1 u2)) = length u1 /\
  length (vmax (draw u1 u2)) = length u1.
Proof.
  intro Hlen. cbn [vmin vmax draw]. unfold np_minimum, np_maximum.
  rewrite !length_map, length_combine, <- Hlen, Nat.min_id. split; reflexivity.
Qed.

(** X6.  The sample the notebook builds from two arrays of [N] draws: [vmin]
    and [vmax] have [N] entries each, every pair is ordered
    ([vmin <= vmax]), both arrays stay within [[0, 1]] when the draws do, and
    nothing has been printed yet. *)
Theorem draw_sample_invariants (u1 u2 : list Q) :
  length u1 = length u2 ->
  v1 (draw u1 u2) = u1 /\
  v2 (draw u1 u2) = u2 /\
  length (vmin (draw u1 u2)) = length u1 /\
  length (vmax (draw u1 u2)) = length u1 /\
  Forall2 Qle (vmin (draw u1 u2)) (vmax (draw u1 u2)) /\
  (Forall in01 u1 -> Forall in01 u2 ->
   Forall in01 (vmin (draw u1 u2)) /\ Forall in01 (vmax (draw u1 u2))) /\
  stdout (draw u1 u2) = [].
Proof.
  intro Hlen.
  destruct (draw_length u1 u2 Hlen) as [L1 L2].
  repeat split; try assumption.
  - apply draw_ordered.
  - apply np_minimum_in01; assumption.
  - apply np_maximum_in01; assumption.
Qed.

Lemma draw_sample_invariants_witness :
  let u1 := [7#10; 1#10; 9#10] in
  let u2 := [8#10; 3#10; 2#10] in
  v1 (draw u1 u2) = u1 /\
  v2 (draw u1 u2) = u2 /\
  length (vmin (draw u1 u2)) = length u1 /\
  length (vmax (draw u1 u2)) = length u1 /\
  Forall2 Qle (vmin (draw u1 u2)) (vmax (draw u1 u2)) /\
  (Forall in01 u1 -> Forall in01 u2 ->
   Forall in01 (vmin (draw u1 u2)) /\ Forall in01 (vmax (draw u1 u2))) /\
  stdout (draw u1 u2) = [].
Proof.
  intros u1 u2.
  apply (draw_sample_invariants u1 u2). reflexivity.
Defined.

(** The mean of an ordered, non-empty sample, from the shared lemmas. *)
Lemma simulate_mean_ordered a s :
  Forall2 Qle (vmin s) (vmax s) ->
  vmin s <> [] ->
  exists m,
    simulate_cost_vectorized a s = (Done (Fin m), s) /\
    m == mean_piecewise a (vmin s) (vmax s) /\
    m = np_sum (all_costs_of a (vmin s) (vmax s))
        / inject_Z (Z.of_nat (length (all_costs_of a (vmin s) (vmax s)))).
Proof.
  intros Hord Hne.
  pose proof (Forall2_length Hord) as Hlen.
  pose proof (all_costs_perm a _ _ Hlen) as P.
  rewrite (flat_map_ordered a _ _ Hord) in P.
  assert (Hn : length (all_costs_of a (vmin s) (vmax s)) = length (vmin s)).
  { rewrite (Permutation_length P), length_map, length_combine, <- Hlen.
    apply Nat.min_id. }
  eexists. split; [|split; [|reflexivity]].
  - rewrite simulate_run by exact Hlen.
    rewrite np_mean_fin by (apply all_costs_nonempty; assumption).
    reflexivity.
  - unfold mean_piecewise. rewrite Hn, (np_sum_perm _ _ P). reflexivity.
Qed.

(** X7.  Sampler and evaluator together: on the sample built from two
    arrays of [N > 0] draws in [[0, 1]], and for every threshold in
    [[0, 1]], [simulate_cost_vectorized] neither raises nor returns NaN; it
    returns the sample mean of the piecewise cost, a number between [0] and
    [4], and leaves the sample as it was. *)
Theorem simulate_on_drawn_sample (a : Q) (u1 u2 : list Q) :
  length u1 = length u2 ->
  u1 <> [] ->
  Forall in01 u1 ->
  Forall in01 u2 ->
  in01 a ->
  exists m,
    simulate_cost_vectorized a (draw u1 u2) = (Done (Fin m), draw u1 u2) /\
    m == mean_piecewise a (np_minimum u1 u2) (np_maximum u1 u2) /\
    0 <= m /\ m <= 4.
Proof.
  intros Hlen Hne H1 H2 Ha.
  destruct (draw_length u1 u2 Hlen) as [L1 _].
  assert (Hv : vmin (draw u1 u2) <> []).
  { intro E. rewrite E in L1. destruct u1; [congruence | discriminate]. }
  pose proof (draw_same_shape u1 u2) as Hs.
  destruct (simulate_mean_ordered a (draw u1 u2) (draw_ordered u1 u2) Hv)
    as (m & Hrun & Hm & Hdef).
  exists m. split; [exact Hrun|]. split; [exact Hm|].
  pose proof (all_costs_nonempty a _ _ Hs Hv) as Hc.
  subst m. split.
  - apply Qle_shift_div_l; [apply length_pos_Q, Hc|].
    rewrite Qmult_0_l. apply np_sum_nonneg, all_costs_nonneg, Hs.
  - apply Qle_shift_div_r; [apply length_pos_Q, Hc|].
    apply np_sum_at_most.
    apply (Permutation_Forall (Permutation_sym (all_costs_perm a _ _ Hs))).
    apply Forall_flat_map, Forall_forall.
    intros [lo hi] Hp. apply pair_costs_at_most_four; [exact Ha|].
    apply in_combine_l in Hp.
    pose proof (np_minimum_in01 u1 u2 H1 H2) as Hin.
    rewrite Forall_forall in Hin. apply Hin, Hp.
Qed.

Lemma simulate_on_drawn_sample_witness :
  let u1 := [7#10; 1#10; 9#10] in
  let u2 := [8#10; 3#10; 2#10] in
  exists m,
    simulate_cost_vectorized (1#2) (draw u1 u2) = (Done (Fin m), draw u1 u2) /\
    m == mean_piecewise (1#2) (np_minimum u1 u2) (np_maximum u1 u2) /\
    0 <= m /\ m <= 4.
Proof.
  intros u1 u2.
  apply (simulate_on_drawn_sample (1#2) u1 u2).
  - reflexivity.
  - discriminate.
  - repeat constructor; vm_compute; discriminate.
  - repeat constructor; vm_compute; discriminate.
  - split; unfold Qle; simpl; lia.
Defined.

(** ** The lines printed by the bisection *)

Lemma trace_with_lines r : forall low high s ls,
  bisection_trace r low high (with_lines s ls) = bisection_trace r low high s.
Proof.
  induction r as [|r IH]; intros low high s ls; cbn [bisection_trace].
  - reflexivity.
  - rewrite IH. reflexivity.
Qed.

Lemma trace_length r : forall low high s,
  length (bisection_trace r low high s) = r.
Proof.
  induction r as [|r IH]; intros; cbn [bisection_trace length].
  - reflexivity.
  - now rewrite IH.
Qed.

(** From width [width r] and with enough fuel, the loop prints the [r]
    lines of [bisection_trace] and returns. *)
Lemma loop_trace r : forall fuel low high s,
  same_shape s ->
  high - low == width r ->
  (r <= fuel)%nat ->
  optimize_loop fuel low high s =
  (Done tt, with_lines s (bisection_trace r low high s)).
Proof.
  induction r as [|r IH]; intros fuel low high s Hs Hw Hf.
  - cbn [bisection_trace]. rewrite with_lines_nil.
    apply loop_exit, guard_stop, Hw.
  - destruct fuel as [|fuel]; [lia|].
    cbn [optimize_loop]. rewrite (guard_go _ _ _ Hw).
    unfold bind. rewrite loop_body_run by exact Hs.
    pose proof (halved _ _ _ (next_bounds_cases low high s)) as Hh.
    rewrite IH.
    + rewrite with_lines_app, trace_with_lines. reflexivity.
    + apply with_lines_shape, Hs.
    + rewrite Hh, Hw. cbn [width]. field.
    + lia.
Qed.

Lemma next_bounds_inside low high s :
  low < high ->
  low <= fst (next_bounds low high s) /\
  fst (next_bounds low high s) < snd (next_bounds low high s) /\
  snd (next_bounds low high s) <= high.
Proof.
  intro Hlt.
  assert (Em : (low + high) / 2 == (1#2) * low + (1#2) * high) by field.
  destruct (next_bounds_cases low high s) as [E|E]; rewrite E; cbn [fst snd];
    rewrite ?Em; repeat split; lra.
Qed.

(** What every printed line says. *)
Lemma trace_line r : forall low high s k l,
  low < high ->
  high - low == width r ->
  nth_error (bisection_trace r low high s) k = Some l ->
  (low <= p_low l /\ p_low l < p_high l /\ p_high l <= high) /\
  p_high l - p_low l == width (r - 1 - k) /\
  (p_mid l = p_low l \/ p_mid l = p_high l) /\
  p_cost_mid l = cost_at (p_mid l) s /\
  (np_lt (p_cost_mid l) (p_cost_low l) = true -> p_low l = p_mid l) /\
  (np_lt (p_cost_mid l) (p_cost_low l) = false -> p_high l = p_mid l).
Proof.
  induction r as [|r IH]; intros low high s k l Hlt Hw Hk.
  - destruct k; discriminate.
  - pose proof (next_bounds_inside low high s Hlt) as (B1 & B2 & B3).
    pose proof (halved _ _ _ (next_bounds_cases low high s)) as Hh.
    assert (Hw' : snd (next_bounds low high s) - fst (next_bounds low high s)
                  == width r).
    { rewrite Hh, Hw. cbn [width]. field. }
    cbn [bisection_trace] in Hk. destruct k as [|k]; cbn [nth_error] in Hk.
    + injection Hk as <-. unfold printed.
      cbn [p_low p_high p_mid p_cost_mid p_cost_low].
      replace (S r - 1 - 0)%nat with r by lia.
      repeat split; try assumption.
      * unfold next_bounds. destruct (np_lt _ _); cbn [fst snd]; auto.
      * unfold next_bounds. intro E. rewrite E. reflexivity.
      * unfold next_bounds. intro E. rewrite E. reflexivity.
    + replace (S r - 1 - S k)%nat with (r - 1 - k)%nat by lia.
      destruct (IH _ _ s k l B2 Hw' Hk) as ((C1 & C2 & C3) & C4).
      split; [|exact C4].
      repeat split; [|exact C2|]; lra.
Qed.

(** Consecutive lines: the interval only shrinks, and the cost printed as
    [cost_low] is the cost at the [low] of the line before. *)
Lemma trace_nested r : forall low high s k l l',
  low < high ->
  nth_error (bisection_trace r low high s) k = Some l ->
  nth_error (bisection_trace r low high s) (S k) = Some l' ->
  p_low l <= p_low l' /\ p_high l' <= p_high l /\
  p_cost_low l' = cost_at (p_low l) s.
Proof.
  induction r as [|r IH]; intros low high s k l l' Hlt Hk Hk'.
  - destruct k; discriminate.
  - pose proof (next_bounds_inside low high s Hlt) as (B1 & B2 & B3).
    cbn [bisection_trace] in Hk, Hk'.
    destruct k as [|k]; cbn [nth_error] in Hk, Hk'.
    + injection Hk as <-.
      destruct r as [|r]; [discriminate|].
      cbn [bisection_trace nth_error] in Hk'. injection Hk' as <-.
      unfold printed at 1 3 5. cbn [p_low p_high p_cost_low].
      pose proof (next_bounds_inside _ _ s B2) as (D1 & D2 & D3).
      unfold printed. cbn [p_low p_high p_cost_low].
      repeat split; assumption.
    + apply (IH _ _ s k l l' B2 Hk Hk').
Qed.

(** X8.  On an empty sample every cost is NaN, every comparison
    [cost_mid < cost_low] is false, and so [optimize] moves [high] in each
    of its ten passes: all printed lines have [low = 0], [high = mid] and
    NaN costs, and the function returns normally. *)
Theorem optimize_on_empty_sample (a : Q) (s : store) (fuel : nat) :
  vmin s = [] ->
  vmax s = [] ->
  (10 <= fuel)%nat ->
  exists lines,
    optimize a fuel s = (Done tt, with_lines s lines) /\
    length lines = 10%nat /\
    Forall (fun l => p_low l = 0 /\ p_high l = p_mid l /\
                     p_cost_mid l = NaN /\ p_cost_low l = NaN) lines.
Proof.
  intros Emin Emax Hf.
  assert (Hs : same_shape s) by (unfold same_shape; now rewrite Emin, Emax).
  assert (Hc : forall x, cost_at x s = NaN).
  { intro x. unfold cost_at. now rewrite Emin, Emax. }
  assert (Hn : forall low high,
             next_bounds low high s = (low, (low + high) / 2)).
  { intros low high. unfold next_bounds. now rewrite !Hc. }
  exists (bisection_trace 10 0 1 s). split; [|split].
  - apply (loop_trace 10 fuel 0 1 s Hs initial_width Hf).
  - apply trace_length.
  - generalize 10%nat as r. generalize 1 as high.
    intros high r. revert high.
    induction r as [|r IH]; intro high; cbn [bisection_trace]; constructor.
    + unfold printed. rewrite Hn, !Hc.
      cbn [p_low p_high p_mid p_cost_mid p_cost_low fst snd]. repeat split.
    + rewrite Hn. cbn [fst snd]. apply IH.
Qed.

Lemma optimize_on_empty_sample_witness :
  exists lines,
    optimize (1#2) 10 (draw [] []) = (Done tt, with_lines (draw [] []) lines) /\
    length lines = 10%nat /\
    Forall (fun l => p_low l = 0 /\ p_high l = p_mid l /\
                     p_cost_mid l = NaN /\ p_cost_low l = NaN) lines.
Proof.
  apply (optimize_on_empty_sample (1#2) (draw [] []) 10).
  - reflexivity.
  - reflexivity.
  - apply le_n.
Defined.

Lemma simulate_run_evaluable a s :
  evaluable s -> simulate_cost_vectorized a s = (Done (cost_at a s), s).
Proof.
  intros [Hs|[Hmax Hlen]].
  - apply simulate_run, Hs.
  - apply simulate_run_single; assumption.
Qed.

Lemma loop_body_run_evaluable low high s :
  evaluable s ->
  loop_body low high s =
  (Done (next_bounds low high s), with_lines s [printed low high s]).
Proof.
  intro Hs. unfold loop_body, bind.
  rewrite !simulate_run_evaluable by exact Hs.
  reflexivity.
Qed.

Lemma loop_trace_evaluable r : forall fuel low high s,
  evaluable s ->
  high - low == width r ->
  (r <= fuel)%nat ->
  optimize_loop fuel low high s =
  (Done tt, with_lines s (bisection_trace r low high s)).
Proof.
  induction r as [|r IH]; intros fuel low high s Hs Hw Hf.
  - cbn [bisection_trace]. rewrite with_lines_nil.
    apply loop_exit, guard_stop, Hw.
  - destruct fuel as [|fuel]; [lia|].
    cbn [optimize_loop]. rewrite (guard_go _ _ _ Hw).
    unfold bind. rewrite loop_body_run_evaluable by exact Hs.
    pose proof (halved _ _ _ (next_bounds_cases low high s)) as Hh.
    rewrite IH.
    + rewrite with_lines_app, trace_with_lines. reflexivity.
    + exact Hs.
    + rewrite Hh, Hw. cbn [width]. field.
    + lia.
Qed.

(** X9.  [optimize] on arrays of different lengths does what its first
    cost evaluation does.  With a non-empty [vmax] it raises IndexError in
    the first pass, before anything is printed.  With an empty [vmax] and a
    [vmin] of two or more entries it raises ValueError there.  With an
    empty [vmax] and a [vmin] of one entry no evaluation raises, and it
    prints its ten lines and returns. *)
Theorem optimize_on_mismatched_arrays (a : Q) (s : store) (fuel : nat) :
  (vmax s <> [] -> length (vmin s) <> length (vmax s) ->
   optimize a (S fuel) s = (Raised IndexError, s)) /\
  (vmax s = [] -> (2 <= length (vmin s))%nat ->
   optimize a (S fuel) s = (Raised ValueError, s)) /\
  (vmax s = [] -> length (vmin s) = 1%nat ->
   exists lines,
     optimize a (10 + fuel) s = (Done tt, with_lines s lines) /\
     length lines = 10%nat).
Proof.
  split; [|split].
  - intros Hne Hs. unfold optimize. cbn [optimize_loop].
    replace (loop_guard 0 1) with true by reflexivity.
    unfold bind, loop_body, bind.
    rewrite simulate_raise by assumption. reflexivity.
  - intros Hmax Hlen. unfold optimize. cbn [optimize_loop].
    replace (loop_guard 0 1) with true by reflexivity.
    unfold bind, loop_body, bind.
    rewrite simulate_raise_value by assumption. reflexivity.
  - intros Hmax Hlen.
    exists (bisection_trace 10 0 1 s). split; [|apply trace_length].
    apply (loop_trace_evaluable 10 (10 + fuel) 0 1 s).
    + right. split; assumption.
    + exact initial_width.
    + lia.
Qed.

Lemma optimize_on_mismatched_arrays_witness :
  let s1 := mkStore [1#2] [1#3] [1#3] [1#2; 1#2] [] in
  let s2 := mkStore [] [] [1#4; 1#2] [] [] in
  let s3 := mkStore [] [] [1#4] [] [] in
  optimize (1#2) 10 s1 = (Raised IndexError, s1) /\
  optimize (1#2) 10 s2 = (Raised ValueError, s2) /\
  exists lines,
    optimize (1#2) 10 s3 = (Done tt, with_lines s3 lines) /\
    length lines = 10%nat.
Proof.
  intros s1 s2 s3. split; [|split].
  - apply (proj1 (optimize_on_mismatched_arrays (1#2) s1 9));
      discriminate.
  - apply (proj1 (proj2 (optimize_on_mismatched_arrays (1#2) s2 9)));
      [reflexivity | apply le_n].
  - apply (proj2 (proj2 (optimize_on_mismatched_arrays (1#2) s3 0)));
      reflexivity.
Defined.

(** X10.  What [optimize] prints on a sample with arrays of equal length:
    ten lines, and in the line of pass [k] (counted from 0) the bounds
    satisfy [0 <= low < high <= 1] and [high - low == 2^(9-k) / 1024], so
    the last line has width [1/1024]; [mid] is the bound that has just
    moved ([low] when the cost at [mid] was smaller than the cost at the
    old [low], [high] otherwise); and [cost_mid] is the value
    [simulate_cost_vectorized] returns at [mid]. *)
Theorem optimize_printed_lines (a : Q) (s : store) (fuel : nat) :
  same_shape s ->
  (10 <= fuel)%nat ->
  exists lines,
    optimize a fuel s = (Done tt, with_lines s lines) /\
    length lines = 10%nat /\
    forall k l,
      nth_error lines k = Some l ->
      (0 <= p_low l /\ p_low l < p_high l /\ p_high l <= 1) /\
      p_high l - p_low l == width (9 - k) /\
      (p_mid l = p_low l \/ p_mid l = p_high l) /\
      fst (simulate_cost_vectorized (p_mid l) s) = Done (p_cost_mid l) /\
      (np_lt (p_cost_mid l) (p_cost_low l) = true -> p_low l = p_mid l) /\
      (np_lt (p_cost_mid l) (p_cost_low l) = false -> p_high l = p_mid l).
Proof.
  intros Hs Hf.
  exists (bisection_trace 10 0 1 s). split; [|split].
  - apply (loop_trace 10 fuel 0 1 s Hs initial_width Hf).
  - apply trace_length.
  - intros k l Hk.
    assert (H01 : 0 < 1) by reflexivity.
    destruct (trace_line 10 0 1 s k l H01 initial_width Hk)
      as (B & W & Hm & Hc & D1 & D2).
    split; [exact B|]. split; [exact W|]. split; [exact Hm|].
    split; [|split; assumption].
    rewrite simulate_run by exact Hs. cbn [fst]. now rewrite Hc.
Qed.

Lemma optimize_printed_lines_witness :
  let s := draw [7#10; 1#10; 9#10] [8#10; 3#10; 2#10] in
  exists lines,
    optimize (1#2) 10 s = (Done tt, with_lines s lines) /\
    length lines = 10%nat /\
    forall k l,
      nth_error lines k = Some l ->
      (0 <= p_low l /\ p_low l < p_high l /\ p_high l <= 1) /\
      p_high l - p_low l == width (9 - k) /\
      (p_mid l = p_low l \/ p_mid l = p_high l) /\
      fst (simulate_cost_vectorized (p_mid l) s) = Done (p_cost_mid l) /\
      (np_lt (p_cost_mid l) (p_cost_low l) = true -> p_low l = p_mid l) /\
      (np_lt (p_cost_mid l) (p_cost_low l) = false -> p_high l = p_mid l).
Proof.
  intro s.
  apply (optimize_printed_lines (1#2) s 10).
  - apply draw_same_shape.
  - apply le_n.
Defined.

(** X11.  Successive lines printed by [optimize] bracket nested intervals:
    [low] never decreases and [high] never increases from one line to the
    next, and the [cost_low] of a line is the value
    [simulate_cost_vectorized] returns at the [low] of the line before. *)
Theorem optimize_lines_nested (a : Q) (s : store) (fuel : nat) :
  same_shape s ->
  (10 <= fuel)%nat ->
  exists lines,
    optimize a fuel s = (Done tt, with_lines s lines) /\
    forall k l l',
      nth_error lines k = Some l ->
      nth_error lines (S k) = Some l' ->
      p_low l <= p_low l' /\
      p_high l' <= p_high l /\
      fst (simulate_cost_vectorized (p_low l) s) = Done (p_cost_low l').
Proof.
  intros Hs Hf.
  exists (bisection_trace 10 0 1 s). split.
  - apply (loop_trace 10 fuel 0 1 s Hs initial_width Hf).
  - intros k l l' Hk Hk'.
    assert (H01 : 0 < 1) by reflexivity.
    destruct (trace_nested 10 0 1 s k l l' H01 Hk Hk') as (N1 & N2 & N3).
    repeat split; try assumption.
    rewrite simulate_run by exact Hs. cbn [fst]. now rewrite N3.
Qed.

Lemma optimize_lines_nested_witness :
  let s := draw [7#10; 1#10; 9#10] [8#10; 3#10; 2#10] in
  exists lines,
    optimize (1#2) 10 s = (Done tt, with_lines s lines) /\
    forall k l l',
      nth_error lines k = Some l ->
      nth_error lines (S k) = Some l' ->
      p_low l <= p_low l' /\
      p_high l' <= p_high l /\
      fst (simulate_cost_vectorized (p_low l) s) = Done (p_cost_low l').
Proof.
  intro s.
  apply (optimize_lines_nested (1#2) s 10).
  - apply draw_same_shape.
  - apply le_n.
Defined.

(** ** What [optimize] leaves behind *)

Lemma loop_body_raise low high s :
  ~ evaluable s -> exists e, loop_body low high s = (Raised e, s).
Proof.
  intro Hs. unfold loop_body, bind.
  destruct (shape_cases s) as [E|[[N E]|[[M E]|[M E]]]].
  - exfalso. apply Hs. left. exact E.
  - exists IndexError. rewrite simulate_raise by assumption. reflexivity.
  - exfalso. apply Hs. right. split; assumption.
  - exists ValueError. rewrite simulate_raise_value by assumption.
    reflexivity.
Qed.

Lemma evaluable_dec s : evaluable s \/ ~ evaluable s.
Proof.
  unfold evaluable, same_shape.
  destruct (shape_cases s) as [E|[[N E]|[[M E]|[M E]]]].
  - left. left. exact E.
  - right. intros [L|[L _]]; [exact (E L) | exact (N L)].
  - left. right. split; assumption.
  - right. intros [L|[_ L]]; [rewrite M in L; cbn in L; lia | lia].
Qed.

Lemma optimize_loop_appends fuel : forall low high s,
  exists lines, snd (optimize_loop fuel low high s) = with_lines s lines.
Proof.
  induction fuel as [|fuel IH]; intros low high s; cbn [optimize_loop];
    destruct (loop_guard low high).
  - exists []. now rewrite with_lines_nil.
  - exists []. now rewrite with_lines_nil.
  - unfold bind.
    destruct (evaluable_dec s) as [E|E].
    + rewrite loop_body_run_evaluable by exact E.
      destruct (IH (fst (next_bounds low high s))
                   (snd (next_bounds low high s))
                   (with_lines s [printed low high s])) as (ls & Hls).
      exists (printed low high s :: ls).
      rewrite Hls, with_lines_app. reflexivity.
    + destruct (loop_body_raise low high s E) as (e & He). rewrite He.
      exists []. now rewrite with_lines_nil.
  - exists []. now rewrite with_lines_nil.
Qed.

(** X12.  Whatever the store and however the run ends (normal return or
    a raised exception), [optimize] only prints: the store it leaves is the store it
    found with lines appended to the output, so [v1], [v2], [vmin] and
    [vmax] are unchanged and earlier output is kept. *)
Theorem optimize_only_prints (a : Q) (fuel : nat) (s : store) :
  exists lines,
    snd (optimize a fuel s) = with_lines s lines /\
    arrays_of (snd (optimize a fuel s)) = arrays_of s /\
    stdout (snd (optimize a fuel s)) = stdout s ++ lines.
Proof.
  destruct (optimize_loop_appends fuel 0 1 s) as (ls & Hls).
  exists ls. unfold optimize. rewrite Hls. repeat split.
Qed.

(** ** The grid of the plotting cell *)

(** X13.  On arrays of equal length the list comprehension over any grid of
    thresholds completes, leaves the store unchanged and returns one cost
    per threshold, in order: the value [simulate_cost_vectorized] returns
    at that threshold. *)
Theorem eval_grid_costs (grid : list Q) (s : store) :
  same_shape s ->
  exists costs,
    eval_grid grid s = (Done costs, s) /\
    Forall2 (fun a c => simulate_cost_vectorized a s = (Done c, s))
            grid costs.
Proof.
  intro Hs. induction grid as [|a rest IH].
  - exists []. split; [reflexivity | constructor].
  - destruct IH as (cs & Hrun & Hall).
    exists (cost_at a s :: cs). split.
    + cbn [eval_grid]. unfold bind.
      rewrite simulate_run by exact Hs. rewrite Hrun. reflexivity.
    + constructor; [apply simulate_run, Hs | exact Hall].
Qed.

Lemma eval_grid_costs_witness :
  let s := draw [7#10; 1#10; 9#10] [8#10; 3#10; 2#10] in
  exists costs,
    eval_grid [0; 1#2; 1] s = (Done costs, s) /\
    Forall2 (fun a c => simulate_cost_vectorized a s = (Done c, s))
            [0; 1#2; 1] costs.
Proof.
  intro s.
  apply (eval_grid_costs [0; 1#2; 1] s).
  apply draw_same_shape.
Defined.

Lemma nat_pos_Q (n : nat) : (0 < n)%nat -> 0 < inject_Z (Z.of_nat n).
Proof.
  intro H. change 0 with (inject_Z 0). rewrite <- Zlt_Qlt. lia.
Qed.

Lemma linspace_unit_length num : length (np_linspace 0 1 num) = num.
Proof.
  destruct num as [|[|k]]; try reflexivity.
  unfold np_linspace.
  rewrite length_app, length_map, length_seq. cbn [length]. lia.
Qed.

Lemma linspace_unit_in01 num : Forall in01 (np_linspace 0 1 num).
Proof.
  destruct num as [|[|k]].
  - constructor.
  - repeat constructor; unfold Qle; simpl; lia.
  - unfold np_linspace. apply Forall_app. split.
    + apply Forall_forall. intros x Hx.
      apply in_map_iff in Hx. destruct Hx as (i & <- & Hi).
      apply in_seq in Hi.
      pose proof (nat_pos_Q (S k) (Nat.lt_0_succ k)) as Hd.
      assert (Hi0 : 0 <= inject_Z (Z.of_nat i)).
      { change 0 with (inject_Z 0). rewrite <- Zle_Qle. lia. }
      assert (Hi1 : inject_Z (Z.of_nat i) <= inject_Z (Z.of_nat (S k))).
      { rewrite <- Zle_Qle. lia. }
      assert (E : inject_Z (Z.of_nat i) * ((1 - 0) / inject_Z (Z.of_nat (S k)))
                  + 0
                  == inject_Z (Z.of_nat i) / inject_Z (Z.of_nat (S k))).
      { field. intro Z0. rewrite Z0 in Hd. discriminate Hd. }
      unfold in01. rewrite E. split.
      * apply Qle_shift_div_l; [exact Hd | lra].
      * apply Qle_shift_div_r; [exact Hd | lra].
    + repeat constructor; unfold Qle; simpl; lia.
Qed.

(** X14.  The plotting cell's grid [np.linspace(0, 1, 1000)] holds 1000
    thresholds, all in [[0, 1]]; on a non-empty sample with arrays of equal
    length and speeds in [[0, 1]] the cost list built over it holds 1000
    entries, none of them NaN, each between [0] and [4], and the sample is
    left unchanged. *)
Theorem grid_costs_finite (s : store) :
  same_shape s ->
  vmin s <> [] ->
  Forall in01 (vmin s) ->
  length a_values = 1000%nat /\
  Forall in01 a_values /\
  exists costs,
    grid_costs s = (Done costs, s) /\
    length costs = 1000%nat /\
    Forall (fun c => exists m, c = Fin m /\ 0 <= m /\ m <= 4) costs.
Proof.
  intros Hs Hne Hv.
  pose proof (linspace_unit_length 1000) as Hlen.
  pose proof (linspace_unit_in01 1000) as Hin.
  fold a_values in Hlen, Hin.
  split; [exact Hlen|]. split; [exact Hin|].
  unfold grid_costs.
  exists (map (fun a => cost_at a s) a_values).
  split; [|split].
  - clear Hlen Hin. induction a_values as [|a rest IH]; [reflexivity|].
    cbn [eval_grid map]. unfold bind.
    rewrite simulate_run by exact Hs. rewrite IH. reflexivity.
  - rewrite length_map. exact Hlen.
  - apply Forall_map. revert Hin. apply Forall_impl. intros a Ha.
    pose proof (all_costs_nonempty a _ _ Hs Hne) as Hc.
    unfold cost_at. rewrite np_mean_fin by exact Hc.
    eexists. split; [reflexivity|]. split.
    + apply Qle_shift_div_l; [apply length_pos_Q, Hc|].
      rewrite Qmult_0_l. apply np_sum_nonneg, all_costs_nonneg, Hs.
    + apply Qle_shift_div_r; [apply length_pos_Q, Hc|].
      apply np_sum_at_most.
      apply (Permutation_Forall (Permutation_sym (all_costs_perm a _ _ Hs))).
      apply Forall_flat_map, Forall_forall.
      intros [lo hi] Hp. apply pair_costs_at_most_four; [exact Ha|].
      apply in_combine_l in Hp.
      rewrite Forall_forall in Hv. apply Hv, Hp.
Qed.

Lemma grid_costs_finite_witness :
  let s := draw [7#10; 1#10; 9#10] [8#10; 3#10; 2#10] in
  length a_values = 1000%nat /\
  Forall in01 a_values /\
  exists costs,
    grid_costs s = (Done costs, s) /\
    length costs = 1000%nat /\
    Forall (fun c => exists m, c = Fin m /\ 0 <= m /\ m <= 4) costs.
Proof.
  intro s.
  apply (grid_costs_finite s).
  - apply draw_same_shape.
  - discriminate.
  - repeat constructor; vm_compute; discriminate.
Defined.

(** ** A threshold inside every pair *)

Lemma masks_between a lo : forall hi,
  Forall2 (fun l h => l <= a /\ a <= h) lo hi ->
  select lo (np_gt a hi) = [] /\
  np_sum_bool (case2_of a lo hi) = length lo /\
  select lo (np_less a lo) = [].
Proof.
  induction lo as [|l lo IH]; intros hi Hb; inversion Hb; subst.
  - repeat split.
  - destruct (IH _ H3) as (I1 & I2 & I3). destruct H1 as [Hl Hh].
    assert (E1 : Qlt_bool y a = false) by (apply Qlt_bool_false; lra).
    assert (E2 : Qle_bool l a = true) by (apply Qle_bool_iff; lra).
    assert (E3 : Qle_bool a y = true) by (apply Qle_bool_iff; lra).
    assert (E4 : Qlt_bool a l = false) by (apply Qlt_bool_false; lra).
    unfold case2_of, np_sum_bool, np_gt, np_ge, np_le, np_less in *.
    cbn [map combine select filter fst snd length].
    rewrite E1, E2, E3, E4. cbn [andb length]. rewrite I1, I2, I3.
    repeat split.
Qed.

Lemma np_sum_zeros n : np_sum (np_zeros n) == 0.
Proof.
  unfold np_zeros. induction n as [|n IH]; cbn [repeat np_sum fold_right].
  - reflexivity.
  - change (fold_right Qplus 0 (repeat 0 n)) with (np_sum (repeat 0 n)).
    rewrite IH. reflexivity.
Qed.

(** X15.  A threshold that separates every pair ([vmin <= a <= vmax] for
    all of them, bounds included) costs nothing: [all_costs] is an array of
    N zeros and the function returns [0]. *)
Theorem cost_between_all_pairs (a : Q) (s : store) :
  Forall2 (fun l h => l <= a /\ a <= h) (vmin s) (vmax s) ->
  vmin s <> [] ->
  all_costs_of a (vmin s) (vmax s) = np_zeros (length (vmin s)) /\
  exists m, simulate_cost_vectorized a s = (Done (Fin m), s) /\ m == 0.
Proof.
  intros Hb Hne.
  destruct (masks_between a _ _ Hb) as (I1 & I2 & I3).
  assert (E : all_costs_of a (vmin s) (vmax s) = np_zeros (length (vmin s))).
  { unfold all_costs_of, np_concatenate. rewrite I1, I2, I3.
    cbn. now rewrite app_nil_r. }
  split; [exact E|].
  assert (Hz : np_zeros (length (vmin s)) <> []).
  { destruct (vmin s); [congruence | discriminate]. }
  eexists. split.
  - rewrite simulate_run by exact (Forall2_length Hb).
    rewrite E, np_mean_fin by exact Hz. reflexivity.
  - rewrite np_sum_zeros. unfold Qdiv. apply Qmult_0_l.
Qed.

Lemma cost_between_all_pairs_witness :
  let s := draw [7#10; 1#10; 9#10] [3#10; 8#10; 2#10] in
  all_costs_of (1#2) (vmin s) (vmax s) = np_zeros (length (vmin s)) /\
  exists m,
    simulate_cost_vectorized (1#2) s = (Done (Fin m), s) /\ m == 0.
Proof.
  intro s.
  apply (cost_between_all_pairs (1#2) s).
  - repeat constructor; vm_compute; discriminate.
  - discriminate.
Defined.

(** ** Which array holds which car *)

Lemma Qlt_bool_compat x x' y y' :
  x == x' -> y == y' -> Qlt_bool x y = Qlt_bool x' y'.
Proof.
  intros Hx Hy. unfold Qlt_bool. now rewrite Hx, Hy.
Qed.

Lemma select_compat lo lo' : forall mask,
  Forall2 Qeq lo lo' -> Forall2 Qeq (select lo mask) (select lo' mask).
Proof.
  intros mask H. revert mask.
  induction H as [|x x' lo lo' Hx _ IH]; intros [|b mask]; cbn [select];
    try constructor.
  destruct b; [constructor; [exact Hx|]|]; apply IH.
Qed.

Lemma Qle_bool_compat x x' y y' :
  x == x' -> y == y' -> Qle_bool x y = Qle_bool x' y'.
Proof.
  intros Hx Hy. now rewrite Hx, Hy.
Qed.

Lemma mask_compat (f : Q -> bool) l l' :
  (forall x x', x == x' -> f x = f x') ->
  Forall2 Qeq l l' -> map f l = map f l'.
Proof.
  intros Hf H. induction H as [|x x' l l' Hx _ IH]; cbn [map].
  - reflexivity.
  - now rewrite IH, (Hf x x' Hx).
Qed.

Lemma costs_compat a lo lo' hi hi' :
  Forall2 Qeq lo lo' -> Forall2 Qeq hi hi' ->
  Forall2 Qeq (all_costs_of a lo hi) (all_costs_of a lo' hi').
Proof.
  intros Hlo Hhi.
  assert (G : np_gt a hi = np_gt a hi').
  { apply mask_compat; [|exact Hhi].
    intros x x' Hx. apply Qlt_bool_compat; [exact Hx | reflexivity]. }
  assert (L : np_less a lo = np_less a lo').
  { apply mask_compat; [|exact Hlo].
    intros x x' Hx. apply Qlt_bool_compat; [reflexivity | exact Hx]. }
  assert (Ge : np_ge a lo = np_ge a lo').
  { apply mask_compat; [|exact Hlo].
    intros x x' Hx. apply Qle_bool_compat; [exact Hx | reflexivity]. }
  assert (Le : np_le a hi = np_le a hi').
  { apply mask_compat; [|exact Hhi].
    intros x x' Hx. apply Qle_bool_compat; [reflexivity | exact Hx]. }
  unfold all_costs_of, case2_of, np_concatenate. cbn [concat].
  rewrite G, L, Ge, Le.
  apply Forall2_app; [|apply Forall2_app; [|apply Forall2_app]].
  - pose proof (select_compat lo lo' (np_gt a hi') Hlo) as S.
    unfold sq_diff. induction S as [|x x' ? ? Hx _ IH]; cbn [map];
      constructor; [now rewrite Hx | exact IH].
  - induction (np_zeros _); constructor; [reflexivity | assumption].
  - pose proof (select_compat lo lo' (np_less a lo') Hlo) as S.
    unfold sq_succ. induction S as [|x x' ? ? Hx _ IH]; cbn [map];
      constructor; [now rewrite Hx | exact IH].
  - constructor.
Qed.

Lemma np_mean_compat l l' :
  Forall2 Qeq l l' -> np_float_eq (np_mean l) (np_mean l').
Proof.
  intro H. pose proof (Forall2_length H) as Hlen.
  assert (Hs : np_sum l == np_sum l').
  { induction H as [|x x' ? ? Hx _ IH]; cbn [np_sum fold_right];
      [reflexivity|].
    cbn [length] in Hlen. injection Hlen as Hlen.
    change (fold_right Qplus 0 l) with (np_sum l).
    change (fold_right Qplus 0 l') with (np_sum l').
    rewrite Hx, (IH Hlen). reflexivity. }
  destruct H as [|x x' l l' _ _]; [exact I|].
  unfold np_mean, np_float_eq. rewrite Hs, Hlen. reflexivity.
Qed.

Lemma np_minimum_swap u1 : forall u2,
  Forall2 Qeq (np_minimum u1 u2) (np_minimum u2 u1).
Proof.
  unfold np_minimum.
  induction u1 as [|x u1 IH]; intros [|y u2]; cbn [combine map fst snd];
    constructor; [apply Q.min_comm | apply IH].
Qed.

Lemma np_maximum_swap u1 : forall u2,
  Forall2 Qeq (np_maximum u1 u2) (np_maximum u2 u1).
Proof.
  unfold np_maximum.
  induction u1 as [|x u1 IH]; intros [|y u2]; cbn [combine map fst snd];
    constructor; [apply Q.max_comm | apply IH].
Qed.

(** X16.  The cost does not depend on which of the two drawn arrays holds
    which car: for two arrays of draws of the same length, exchanging [v1]
    and [v2] before [vmin] and [vmax] are built gives the same value at
    every threshold (NaN for NaN on the empty sample, equal numbers
    otherwise). *)
Theorem simulate_swap_symmetric (a : Q) (u1 u2 : list Q) :
  length u1 = length u2 ->
  exists x y,
    simulate_cost_vectorized a (draw u1 u2) = (Done x, draw u1 u2) /\
    simulate_cost_vectorized a (draw u2 u1) = (Done y, draw u2 u1) /\
    np_float_eq x y.
Proof.
  intros _.
  do 2 eexists. split; [|split].
  - apply simulate_run, draw_same_shape.
  - apply simulate_run, draw_same_shape.
  - apply np_mean_compat, costs_compat.
    + apply np_minimum_swap.
    + apply np_maximum_swap.
Qed.

Lemma simulate_swap_symmetric_witness :
  let u1 := [7#10; 1#10; 9#10] in
  let u2 := [8#10; 3#10; 2#10] in
  length u1 = length u2 /\
  exists x y,
    simulate_cost_vectorized (1#2) (draw u1 u2) = (Done x, draw u1 u2) /\
    simulate_cost_vectorized (1#2) (draw u2 u1) = (Done y, draw u2 u1) /\
    np_float_eq x y.
Proof.
  intros u1 u2. split; [reflexivity|].
  apply (simulate_swap_symmetric (1#2) u1 u2). reflexivity.
Defined.
